(** * Dashboard_my-streamlit-app: the ingestion and statistics pipeline

    A shallow embedding of the pipeline functions of [Dashboard_New.py] and
    [Dashboard_New_PDF1.py]:
    [normalize_state], [clean_dataframe], [process_files],
    [calculate_merchant_stats] and [get_merchant_date_range], and of what
    the scripts do with their results: the overall figures, the screenshot
    view, [format_currency], [format_date_range], the top state of the
    report and the configuration of the mail.

    Modelling conventions.
    - Text is a [string] of ASCII characters.  [lower], [upper] and [strip]
      act as Python's [str.lower], [str.upper] and [str.strip] do on code
      points below 128; other characters are left alone, and a statement
      that Python's treatment of them would break is made of ASCII text.
    - An amount is a [float]: an exact rational or one of the three special
      values; sums of amounts are not rounded, the special values are kept.
    - The success rate is computed as Python computes it, in doubles: the
      quotient, the product by 100 and [round] each give the nearest
      double, ties to even ([binary64]).
    - A Python exception is the [Raise] branch of [outcome].
    - A pandas [DataFrame] is a row count and a list of labelled columns;
      labels may repeat, as they may in pandas.
    - What pandas does outside this repository (reading a file, scanning a
      numeric literal, parsing a timestamp column) is the interface
      [External]. *)

From Stdlib Require Import Ascii String QArith Qround Qcanon Lqa Lia.
From Stdlib Require Import Qabs Qpower DecimalString DecimalPos DecimalN.
From stdpp Require Import base option list strings gmap fin_maps countable.

Local Open Scope string_scope.
Local Open Scope list_scope.

(** ** Python: exceptions and text *)

Module Py.

Inductive exn : Set :=
  | KeyError
  | AttributeError
  | TypeError
  | ValueError
  | InvalidIndexError
  | ParserError.

Inductive outcome (A : Type) : Type :=
  | Ok (a : A)
  | Raise (e : exn).
Arguments Ok {A} a.
Arguments Raise {A} e.

#[global] Instance outcome_ret : MRet outcome := λ A a, Ok a.
#[global] Instance outcome_bind : MBind outcome := λ A B f m,
  match m with
  | Ok a => f a
  | Raise e => Raise e
  end.

#[global] Instance outcome_fmap : FMap outcome := λ A B f m,
  match m with
  | Ok a => Ok (f a)
  | Raise e => Raise e
  end.

(** [[f(x) for x in l]], stopping at the first exception. *)
Fixpoint for_each {A B} (f : A → outcome B) (l : list A) : outcome (list B) :=
  match l with
  | [] => Ok []
  | x :: l' => y ← f x; ys ← for_each f l'; Ok (y :: ys)
  end.

(** Text is modelled on ASCII.  A character is a byte, and on the
    characters of ASCII, those with a code below 128, the functions below
    are Python's [isspace], [lower], [upper], [strip] and [capitalize].
    Beyond ASCII Python has further blanks and case mappings, some of
    which change the length of the text; they are outside the model, and
    a statement that would depend on them is made of ASCII text, with
    [isascii] as its hypothesis. *)
Definition code (c : ascii) : N := N_of_ascii c.

(** [s.isascii()] *)
Fixpoint isascii (s : string) : bool :=
  match s with
  | EmptyString => true
  | String c s' => (code c <? 128)%N && isascii s'
  end.

(** [c.isspace()] on ASCII: tab .. carriage return, the four separators
    0x1c .. 0x1f, and the blank. *)
Definition isspace (c : ascii) : bool :=
  let n := code c in
  ((9 <=? n) && (n <=? 13) || (28 <=? n) && (n <=? 32))%N.

Definition lower_char (c : ascii) : ascii :=
  let n := code c in
  if ((65 <=? n) && (n <=? 90))%N then ascii_of_N (n + 32) else c.

Definition upper_char (c : ascii) : ascii :=
  let n := code c in
  if ((97 <=? n) && (n <=? 122))%N then ascii_of_N (n - 32) else c.

Fixpoint lower (s : string) : string :=
  match s with
  | EmptyString => EmptyString
  | String c s' => String (lower_char c) (lower s')
  end.

Fixpoint upper (s : string) : string :=
  match s with
  | EmptyString => EmptyString
  | String c s' => String (upper_char c) (upper s')
  end.

Fixpoint lstrip (s : string) : string :=
  match s with
  | EmptyString => EmptyString
  | String c s' => if isspace c then lstrip s' else s
  end.

Fixpoint rstrip (s : string) : string :=
  match s with
  | EmptyString => EmptyString
  | String c s' =>
      match rstrip s' with
      | EmptyString => if isspace c then EmptyString else String c EmptyString
      | r => String c r
      end
  end.

(** [s.strip()] *)
Definition strip (s : string) : string := rstrip (lstrip s).

(** [s.capitalize()]: first character upper-cased, all others lower-cased. *)
Definition capitalize (s : string) : string :=
  match s with
  | EmptyString => EmptyString
  | String c s' => String (upper_char c) (lower s')
  end.

(** [s.endswith(suffix)] *)
Definition endswith (s suffix : string) : bool :=
  let n := String.length s in
  let k := String.length suffix in
  (k <=? n)%nat && String.eqb (String.substring (n - k) k s) suffix.

(** The integer nearest to [x], a tie going to the even one. *)
Definition round_half_even (x : Q) : Z :=
  let n := Qfloor x in
  match (x - inject_Z n ?= 1 # 2)%Q with
  | Lt => n
  | Gt => (n + 1)%Z
  | Eq => if Z.even n then n else (n + 1)%Z
  end.

(** The exponent of the greatest power of two that is not above [x], for
    a positive [x]. *)
Definition ilog2 (x : Q) : Z :=
  let k := (Z.log2 (Qnum x) - Z.log2 (Zpos (Qden x)))%Z in
  if Qle_bool (2 ^ k) x then k else (k - 1)%Z.

(** The double nearest to a positive [x], a tie going to the one whose
    significand is even: a significand of 53 bits, and a least exponent
    of -1074 for the subnormal numbers. *)
Definition binary64_pos (x : Q) : Q :=
  let e := Z.max (ilog2 x - 52) (-1074) in
  (inject_Z (round_half_even (x / 2 ^ e)) * 2 ^ e)%Q.

(** The value of the float that an operation with the exact result [x]
    returns: IEEE 754 binary64, rounding to nearest, ties to even.
    Overflow to [inf], which takes an [x] beyond 1.7e308, is left out:
    what is rounded with it below lies between 0 and 100. *)
Definition binary64 (x : Q) : Q :=
  match (x ?= 0)%Q with
  | Eq => 0%Q
  | Gt => binary64_pos x
  | Lt => (- binary64_pos (- x))%Q
  end.

(** [a / b] on two [int]s, or on two floats: the quotient, rounded
    once. *)
Definition truediv (a b : Q) : Q := binary64 (a / b).

(** [x * y] on floats, an [int] such as [100] being a float exactly. *)
Definition float_mul (x y : Q) : Q := binary64 (x * y).

(** [round(x, 2)] on a float: the exact value of the double is rounded to
    two decimals, ties to even, and the result is the double nearest to
    that decimal number.  On the [int] 0 it is 0. *)
Definition round2 (x : Q) : Q :=
  binary64 (inject_Z (round_half_even (x * 100)) / 100)%Q.

(** An [int] where a float is computed with it. *)
Definition of_int (n : nat) : Q := inject_Z (Z.of_nat n).

(** [sep in s], for a separator of one character *)
Fixpoint contains (sep : ascii) (s : string) : bool :=
  match s with
  | EmptyString => false
  | String c s' => bool_decide (c = sep) || contains sep s'
  end.

(** [s.split(sep, 1)] where [sep] occurs in [s]: what stands before its
    first occurrence and what stands after.  [None] where it does not
    occur (Python then returns the one-element list [[s]]). *)
Fixpoint split_once (sep : ascii) (s : string) : option (string * string) :=
  match s with
  | EmptyString => None
  | String c s' =>
      if bool_decide (c = sep) then Some (EmptyString, s')
      else match split_once sep s' with
           | Some (before, after) => Some (String c before, after)
           | None => None
           end
  end.

(** [range(start, stop, step)] for a positive [step] *)
Definition range (start stop step : nat) : list nat :=
  (λ k, start + k * step)%nat <$> seq 0 ((stop - start + (step - 1)) / step)%nat.

(** [l[a:b]] for indices that are not negative *)
Definition slice {A} (l : list A) (a b : nat) : list A :=
  take (b - a) (drop a l).

(** The decimal numeral of a natural number, [str(n)]. *)
Definition decimal (n : N) : string :=
  NilZero.string_of_uint (N.to_uint n).

(** The digits, least significant first, with the separator that the [,]
    of a format specification puts after every third digit that has a
    digit to follow. *)
Fixpoint group_thousands (digits : list ascii) : list ascii :=
  match digits with
  | a :: b :: c :: (_ :: _) as rest => a :: b :: c :: ","%char :: group_thousands rest
  | _ => digits
  end.

(** [format(n, ',')] for a natural number, from its numeral *)
Definition thousands (numeral : string) : string :=
  string_of_list_ascii (rev (group_thousands (rev (list_ascii_of_string numeral)))).

End Py.
Export Py.

(** ** pandas: cells, columns and frames *)

Module Pandas.

(** A float64: an exact rational, or inf, -inf, NaN. *)
Inductive float : Set :=
  | FFin (q : Qc)
  | FPInf
  | FNInf
  | FNaN.

Definition fzero : float := FFin (Q2Qc 0).

Definition isnan (x : float) : bool :=
  match x with FNaN => true | _ => false end.

Definition isfinite (x : float) : bool :=
  match x with FFin _ => true | _ => false end.

(** IEEE addition without the rounding. *)
Definition fadd (x y : float) : float :=
  match x, y with
  | FNaN, _ | _, FNaN => FNaN
  | FFin a, FFin b => FFin (a + b)%Qc
  | FPInf, FNInf | FNInf, FPInf => FNaN
  | FPInf, _ | _, FPInf => FPInf
  | FNInf, _ | _, FNInf => FNInf
  end.

(** What one slot of a column holds: Python's [None], a [str], or a number
    (a float, or an int taken as the float of the same value). *)
Inductive cell : Set :=
  | CNone
  | CStr (s : string)
  | CNum (x : float).

#[global] Instance float_eq_dec : EqDecision float.
Proof. solve_decision. Defined.

#[global] Instance cell_eq_dec : EqDecision cell.
Proof. solve_decision. Defined.

#[global] Instance float_countable : Countable float.
Proof.
  refine (inj_countable'
    (λ x, match x with
          | FFin q => inl q | FPInf => inr 0%nat | FNInf => inr 1%nat | FNaN => inr 2%nat
          end)
    (λ y, match y with
          | inl q => FFin q | inr 0%nat => FPInf | inr 1%nat => FNInf | inr _ => FNaN
          end) _).
  intros []; reflexivity.
Defined.

#[global] Instance cell_countable : Countable cell.
Proof.
  refine (inj_countable'
    (λ c, match c with
          | CNone => inl () | CStr s => inr (inl s) | CNum x => inr (inr x)
          end)
    (λ y, match y with
          | inl _ => CNone | inr (inl s) => CStr s | inr (inr x) => CNum x
          end) _).
  intros []; reflexivity.
Defined.

(** [a == b] between two scalars, as the element-wise comparison of a
    column with a scalar computes it: a missing value equals nothing, text
    never equals a number. *)
Definition py_eq (a b : cell) : bool :=
  match a, b with
  | CStr s, CStr t => bool_decide (s = t)
  | CNum x, CNum y => negb (isnan x) && negb (isnan y) && bool_decide (x = y)
  | _, _ => false
  end.

(** A column. *)
Abbreviation Series := (list cell).

Record DataFrame : Set := {
  index_len : nat;                    (* the number of rows, [len(df.index)] *)
  series : list (string * Series)     (* the columns, left to right *)
}.

(** Every column is as long as the index. *)
Definition well_formed (df : DataFrame) : Prop :=
  Forall (λ c, length c.2 = index_len df) (series df).

(** [df.columns] *)
Definition columns (df : DataFrame) : list string := (series df).*1.

(** [len(df)] *)
Definition len (df : DataFrame) : nat := index_len df.

(** [df.empty]: some axis has length 0. *)
Definition is_empty (df : DataFrame) : bool :=
  bool_decide (index_len df = 0%nat) || bool_decide (series df = []).

(** All columns that carry the label [key], left to right. *)
Definition labelled (key : string) (cols : list (string * Series)) : list (string * Series) :=
  filter (λ c, c.1 = key) cols.

(** [df[key]] where the code goes on to use it as a Series.  A label that
    names several columns makes pandas answer with a frame; the code's use
    of that frame is not modelled and the access is an error here,
    [InvalidIndexError]. *)
Definition getitem (df : DataFrame) (key : string) : outcome Series :=
  match labelled key (series df) with
  | [] => Raise KeyError
  | [c] => Ok c.2
  | _ => Raise InvalidIndexError
  end.

(** [df[keys]] for a list of labels: for each key in turn, every column
    carrying it; [KeyError] when a key names no column. *)
Definition getitem_list (df : DataFrame) (keys : list string) : outcome DataFrame :=
  if forallb (λ k, bool_decide (k ∈ columns df)) keys
  then Ok {| index_len := index_len df;
             series := keys ≫= (λ k, labelled k (series df)) |}
  else Raise KeyError.

(** [df[key] = values] for a label that is present *)
Definition setitem (df : DataFrame) (key : string) (values : Series) : DataFrame :=
  {| index_len := index_len df;
     series := (λ c, if bool_decide (c.1 = key) then (key, values) else c) <$> series df |}.

(** [df.columns = labels] *)
Definition set_columns (df : DataFrame) (labels : list string) : DataFrame :=
  {| index_len := index_len df;
     series := zip labels (series df).*2 |}.

(** [df.rename(columns=mapping)] *)
Definition rename (df : DataFrame) (mapping : gmap string string) : DataFrame :=
  {| index_len := index_len df;
     series := (λ c, (default c.1 (mapping !! c.1), c.2)) <$> series df |}.

(** The entries of [l] at the positions where [mask] is [True]. *)
Fixpoint select {A} (mask : list bool) (l : list A) : list A :=
  match mask, l with
  | b :: mask', x :: l' => if b then x :: select mask' l' else select mask' l'
  | _, _ => []
  end.

(** [df[mask]] for a boolean column [mask] *)
Definition getitem_mask (df : DataFrame) (mask : list bool) : DataFrame :=
  {| index_len := length (filter (λ b, b = true) mask);
     series := (λ c, (c.1, select mask c.2)) <$> series df |}.

(** [s.sum()] on a float column: missing values are skipped. *)
Definition nansum (xs : list float) : float :=
  foldr (λ x acc, if isnan x then acc else fadd x acc) fzero xs.

(** A cell of a numeric column as a float.  Text has no place in one: a
    column that still holds text is outside the model, [TypeError]. *)
Definition as_float (c : cell) : outcome float :=
  match c with
  | CNum x => Ok x
  | CNone => Ok FNaN
  | CStr _ => Raise TypeError
  end.

(** [s.sum()] *)
Definition sum (s : Series) : outcome float :=
  xs ← for_each as_float s; Ok (nansum xs).

(** [s.unique()]: the values of the column in order of first appearance,
    each once. *)
Fixpoint unique (s : Series) : Series :=
  match s with
  | [] => []
  | c :: s' => c :: filter (λ y, y ≠ c) (unique s')
  end.

End Pandas.
Export Pandas.

(** ** What lies outside the repository *)

Class External : Type := {
  (** an uploaded file object *)
  UploadedFile : Type;
  (** [file.name] *)
  name : UploadedFile → string;
  (** [pd.read_csv(file)] and [pd.read_excel(file)] *)
  read_csv : UploadedFile → outcome DataFrame;
  read_excel : UploadedFile → outcome DataFrame;
  (** the number [pd.to_numeric] reads in a text cell, NaN when it reads none *)
  numeric_literal : string → float;
  (** [pd.to_datetime(column, errors='coerce')], timestamps in nanoseconds
      since the epoch, [None] for NaT *)
  to_datetime : Series → outcome (list (option Z))
}.

Module pd.

(** [pd.isna(x)] on a scalar *)
Definition isna (c : cell) : bool :=
  match c with
  | CNone | CNum FNaN => true
  | _ => false
  end.

(** [s.value_counts().to_dict()]: the number of occurrences of every value
    that is not missing. *)
Definition value_counts (s : Series) : gmap cell nat :=
  foldr (λ c m, if isna c then m else <[c := S (default 0%nat (m !! c))]> m) ∅ s.

(** [df.groupby(key)[col].sum().to_dict()] from the key column and the
    summed column: one entry per key that is not missing, summing what is
    not NaN. *)
Definition groupby_sum (keys : Series) (vals : list float) : gmap cell float :=
  foldr (λ kx m,
           if isna kx.1 then m
           else <[kx.1 := (if isnan kx.2 then id else fadd kx.2) (default fzero (m !! kx.1))]> m)
        ∅ (zip keys vals).

(** The labels of [l] in order of first appearance. *)
Fixpoint unique (l : list string) : list string :=
  match l with
  | [] => []
  | x :: l' => x :: filter (λ y, y ≠ x) (unique l')
  end.

(** The column [label] of [df] for the union frame: its data, or NaN in
    every row when [df] has no such column. *)
Definition column_or_nan (label : string) (df : DataFrame) : Series :=
  match labelled label (series df) with
  | c :: _ => c.2
  | [] => replicate (index_len df) (CNum FNaN)
  end.

(** Two frames with the same labels, one on top of the other. *)
Definition stack (a b : list (string * Series)) : list (string * Series) :=
  zip_with (λ x y, (x.1, x.2 ++ y.2)) a b.

(** [pd.concat(objs, ignore_index=True)].  Frames whose labels all agree
    are stacked position by position; otherwise the labels are united in
    order of first appearance, which pandas refuses when a frame repeats a
    label. *)
Definition concat (objs : list DataFrame) : outcome DataFrame :=
  match objs with
  | [] => Raise ValueError
  | first :: rest =>
      let rows := sum_list (index_len <$> objs) in
      if forallb (λ df, bool_decide (columns df = columns first)) rest
      then Ok {| index_len := rows;
                 series := foldl stack (series first) (series <$> rest) |}
      else if forallb (λ df, bool_decide (NoDup (columns df))) objs
      then Ok {| index_len := rows;
                 series := (λ l, (l, objs ≫= column_or_nan l)) <$> unique (objs ≫= columns) |}
      else Raise InvalidIndexError
  end.

(** [pd.to_numeric(x, errors='coerce')] on one cell *)
Definition to_numeric {io : External} (c : cell) : float :=
  match c with
  | CNum x => x
  | CNone => FNaN
  | CStr s => numeric_literal s
  end.

(** [.fillna(value)] on one entry of a float column *)
Definition fillna (value x : float) : float :=
  if isnan x then value else x.

End pd.

(** The dictionary [calculate_merchant_stats] returns. *)
Record MerchantStats : Type := {
  merchant_id : cell;
  total_txns : nat;
  success_txns : nat;
  success_rate : Q;
  total_amount : float;
  success_amount : float;
  state_counts : gmap cell nat;
  state_amounts : gmap cell float
}.

(** ** Dashboard_New.py *)

Module Dashboard_New.

Definition REQUIRED_COLUMNS : list string :=
  ["Account"; "Merchant ID"; "Amount"; "Remit. Timestamp"; "Issue Timestamp"; "State"].

Definition state_map : gmap string string :=
  list_to_map
    [("remitted", "Remitted"); ("published", "Published"); ("rejected", "Rejected");
     ("on hold", "On hold"); ("onhold", "On hold"); ("stuck", "Stuck");
     ("in review", "In review"); ("inreview", "In review");
     ("in process", "In process"); ("inprocess", "In process");
     ("aml review", "Aml review"); ("amlreview", "Aml review");
     ("no config", "No config"); ("noconfig", "No config")].

(** On text, [str(state)] is [state] itself.  On a number that is not NaN
    the default argument of [state_map.get], [state.capitalize()], is
    computed before the lookup and raises: a number has no such method. *)
Definition normalize_state (state : cell) : outcome string :=
  if pd.isna state then Ok "Unknown"
  else
    match state with
    | CStr s =>
        let state_lower := lower (strip s) in
        Ok (default (capitalize s) (state_map !! state_lower))
    | _ => Raise AttributeError
    end.

(** The inner loop of [clean_dataframe]: the first required name equal to
    [col] up to case. *)
Fixpoint first_required (col : string) (reqs : list string) : option string :=
  match reqs with
  | [] => None
  | req_col :: reqs' =>
      if bool_decide (lower col = lower req_col) then Some req_col
      else first_required col reqs'
  end.

Definition clean_dataframe (df : DataFrame) : outcome DataFrame :=
  let df := set_columns df (strip <$> columns df) in
  let column_mapping :=
    foldl (λ (m : gmap string string) col,
             match first_required col REQUIRED_COLUMNS with
             | Some req_col => <[col := req_col]> m
             | None => m
             end) ∅ (columns df) in
  let df := rename df column_mapping in
  let existing_cols := filter (λ col, col ∈ columns df) REQUIRED_COLUMNS in
  getitem_list df existing_cols.

Section Files.
Context {io : External}.

(** The loop of [process_files]: the frames read and cleaned, and the names
    of the files reported with [st.error]. *)
Fixpoint read_files (uploaded_files : list UploadedFile) : list DataFrame * list string :=
  match uploaded_files with
  | [] => ([], [])
  | file :: files' =>
      let attempt :=
        df ← (if endswith (name file) ".csv" then read_csv file else read_excel file);
        clean_dataframe df in
      let '(all_data, errors) := read_files files' in
      match attempt with
      | Ok df => (df :: all_data, errors)
      | Raise _ => (all_data, name file :: errors)
      end
  end.

(** [None] is Python's [None]. *)
Definition process_files (uploaded_files : list UploadedFile) : outcome (option DataFrame) :=
  let all_data := (read_files uploaded_files).1 in
  match all_data with
  | [] => Ok None
  | _ :: _ =>
      combined_df ← pd.concat all_data;
      combined_df ←
        (if bool_decide ("State" ∈ columns combined_df) then
           match labelled "State" (series combined_df) with
           | [c] =>
               states ← for_each normalize_state c.2;
               Ok (setitem combined_df "State" (CStr <$> states))
           | _ =>
               (* several [State] columns: [apply] hands each column whole to
                  [normalize_state], and [if pd.isna(state)] has no truth value *)
               Raise ValueError
           end
         else Ok combined_df);
      combined_df ←
        (if bool_decide ("Amount" ∈ columns combined_df) then
           match labelled "Amount" (series combined_df) with
           | [c] =>
               Ok (setitem combined_df "Amount"
                     ((λ x, CNum (pd.fillna fzero (pd.to_numeric x))) <$> c.2))
           | _ =>
               (* several [Amount] columns: [pd.to_numeric] refuses a frame *)
               Raise TypeError
           end
         else Ok combined_df);
      Ok (Some combined_df)
  end.

End Files.

Definition calculate_merchant_stats (df : DataFrame) (merchant_id : cell) : outcome MerchantStats :=
  ids ← getitem df "Merchant ID";
  let merchant_data := getitem_mask df ((λ c, py_eq c merchant_id) <$> ids) in
  let total_txns := len merchant_data in
  states ← getitem merchant_data "State";
  let remitted := getitem_mask merchant_data ((λ c, py_eq c (CStr "Remitted")) <$> states) in
  let success_txns := len remitted in
  let success_rate :=
    if (0 <? total_txns)%nat
    then float_mul (truediv (of_int success_txns) (of_int total_txns)) 100
    else 0%Q in
  total_amount ← getitem merchant_data "Amount" ≫= Pandas.sum;
  success_amount ← getitem remitted "Amount" ≫= Pandas.sum;
  let state_counts := pd.value_counts states in
  state_amounts ←
    (amounts ← getitem merchant_data "Amount";
     xs ← for_each as_float amounts;
     Ok (pd.groupby_sum states xs));
  Ok {| merchant_id := merchant_id;
        total_txns := total_txns;
        success_txns := success_txns;
        success_rate := round2 success_rate;
        total_amount := total_amount;
        success_amount := success_amount;
        state_counts := state_counts;
        state_amounts := state_amounts |}.

(** The script's test before anything is computed or drawn:
    [df is not None and not df.empty]; otherwise "No valid data found". *)
Definition has_valid_data (df : option DataFrame) : bool :=
  match df with
  | Some d => negb (is_empty d)
  | None => false
  end.

(** [f"Rs {amount:,.0f}"]: no decimals, the nearest integer with ties to
    even, thousands separated.  A negative amount keeps its sign even when
    it rounds to 0.  [FFin 0] is the float 0.0; the float -0.0, which
    Python shows with the sign, is not among the values of [float], so of
    an amount of zero the statements below leave the sign open. *)
Definition format_currency (amount : float) : string :=
  "Rs " +:+
  match amount with
  | FNaN => "nan"
  | FPInf => "inf"
  | FNInf => "-inf"
  | FFin q =>
      (if bool_decide (q < 0)%Qc then "-" else "")
      +:+ thousands (decimal (Z.to_N (round_half_even (Qabs q))))
  end.

(** The figures of the banner "Overall Statistics". *)
Record OverallStats : Type := {
  overall_total_txns : nat;
  overall_success_txns : nat;
  overall_sr : Q;
  overall_total_amount : float;
  overall_success_amount : float
}.

(** The script, once the table is there: [merchants] and the overall
    figures. *)
Definition merchants (df : DataFrame) : outcome Series :=
  ids ← getitem df "Merchant ID"; Ok (unique ids).

Definition overall_stats (df : DataFrame) : outcome OverallStats :=
  let total_txns := len df in
  states ← getitem df "State";
  let remitted := getitem_mask df ((λ c, py_eq c (CStr "Remitted")) <$> states) in
  let success_txns := len remitted in
  let overall_sr :=
    if (0 <? total_txns)%nat
    then float_mul (truediv (of_int success_txns) (of_int total_txns)) 100
    else 0%Q in
  total_amount ← getitem df "Amount" ≫= Pandas.sum;
  success_amount ← getitem remitted "Amount" ≫= Pandas.sum;
  Ok {| overall_total_txns := total_txns;
        overall_success_txns := success_txns;
        overall_sr := overall_sr;
        overall_total_amount := total_amount;
        overall_success_amount := success_amount |}.

(** The "Screenshot View": the merchants in batches of six, each batch in
    a first row of up to three cards and, when it has more than three, a
    second row.  The result lists the rows with the merchant of each card;
    [None] stands for the [IndexError] of [batch_merchants[idx]]. *)
Definition screenshot_view {A} (merchants : list A) : option (list (list A)) :=
  let num_merchants := length merchants in
  views ← mapM (λ batch_start,
    let batch_end := ((batch_start + 6) `min` num_merchants)%nat in
    let batch_merchants := slice merchants batch_start batch_end in
    row1 ← (if bool_decide (1 ≤ length batch_merchants)%nat
            then cards ← mapM (λ idx, batch_merchants !! idx)
                              (range 0 (3 `min` length batch_merchants) 1);
                 Some [cards]
            else Some []);
    row2 ← (if bool_decide (3 < length batch_merchants)%nat
            then cards ← mapM (λ idx, batch_merchants !! idx)
                              (range 3 (6 `min` length batch_merchants) 1);
                 Some [cards]
            else Some []);
    Some (row1 ++ row2)) (range 0 num_merchants 6);
  Some (mjoin views).

End Dashboard_New.

(** ** Dashboard_New_PDF1.py *)

Module Dashboard_New_PDF1.

Definition REQUIRED_COLUMNS : list string :=
  ["Account"; "Merchant ID"; "Amount"; "Remit. Timestamp"; "Issue Timestamp"; "State"].

Definition state_map : gmap string string :=
  list_to_map
    [("remitted", "Remitted"); ("published", "Published"); ("rejected", "Rejected");
     ("on hold", "On hold"); ("onhold", "On hold"); ("stuck", "Stuck");
     ("in review", "In review"); ("inreview", "In review");
     ("in process", "In process"); ("inprocess", "In process");
     ("aml review", "Aml review"); ("amlreview", "Aml review");
     ("no config", "No config"); ("noconfig", "No config")].

(** On text, [str(state)] is [state] itself.  On a number that is not NaN
    the default argument of [state_map.get], [state.capitalize()], is
    computed before the lookup and raises: a number has no such method. *)
Definition normalize_state (state : cell) : outcome string :=
  if pd.isna state then Ok "Unknown"
  else
    match state with
    | CStr s =>
        let state_lower := lower (strip s) in
        Ok (default (capitalize s) (state_map !! state_lower))
    | _ => Raise AttributeError
    end.

(** The inner loop of [clean_dataframe]: the first required name equal to
    [col] up to case. *)
Fixpoint first_required (col : string) (reqs : list string) : option string :=
  match reqs with
  | [] => None
  | req_col :: reqs' =>
      if bool_decide (lower col = lower req_col) then Some req_col
      else first_required col reqs'
  end.

Definition clean_dataframe (df : DataFrame) : outcome DataFrame :=
  let df := set_columns df (strip <$> columns df) in
  let column_mapping :=
    foldl (λ (m : gmap string string) col,
             match first_required col REQUIRED_COLUMNS with
             | Some req_col => <[col := req_col]> m
             | None => m
             end) ∅ (columns df) in
  let df := rename df column_mapping in
  let existing_cols := filter (λ col, col ∈ columns df) REQUIRED_COLUMNS in
  getitem_list df existing_cols.

Section Files.
Context {io : External}.

(** The loop of [process_files]: the frames read and cleaned, and the names
    of the files reported with [st.error]. *)
Fixpoint read_files (uploaded_files : list UploadedFile) : list DataFrame * list string :=
  match uploaded_files with
  | [] => ([], [])
  | file :: files' =>
      let attempt :=
        df ← (if endswith (name file) ".csv" then read_csv file else read_excel file);
        clean_dataframe df in
      let '(all_data, errors) := read_files files' in
      match attempt with
      | Ok df => (df :: all_data, errors)
      | Raise _ => (all_data, name file :: errors)
      end
  end.

(** [None] is Python's [None]. *)
Definition process_files (uploaded_files : list UploadedFile) : outcome (option DataFrame) :=
  let all_data := (read_files uploaded_files).1 in
  match all_data with
  | [] => Ok None
  | _ :: _ =>
      combined_df ← pd.concat all_data;
      combined_df ←
        (if bool_decide ("State" ∈ columns combined_df) then
           match labelled "State" (series combined_df) with
           | [c] =>
               states ← for_each normalize_state c.2;
               Ok (setitem combined_df "State" (CStr <$> states))
           | _ =>
               (* several [State] columns: [apply] hands each column whole to
                  [normalize_state], and [if pd.isna(state)] has no truth value *)
               Raise ValueError
           end
         else Ok combined_df);
      combined_df ←
        (if bool_decide ("Amount" ∈ columns combined_df) then
           match labelled "Amount" (series combined_df) with
           | [c] =>
               Ok (setitem combined_df "Amount"
                     ((λ x, CNum (pd.fillna fzero (pd.to_numeric x))) <$> c.2))
           | _ =>
               (* several [Amount] columns: [pd.to_numeric] refuses a frame *)
               Raise TypeError
           end
         else Ok combined_df);
      Ok (Some combined_df)
  end.

End Files.

Definition calculate_merchant_stats (df : DataFrame) (merchant_id : cell) : outcome MerchantStats :=
  ids ← getitem df "Merchant ID";
  let merchant_data := getitem_mask df ((λ c, py_eq c merchant_id) <$> ids) in
  let total_txns := len merchant_data in
  states ← getitem merchant_data "State";
  let remitted := getitem_mask merchant_data ((λ c, py_eq c (CStr "Remitted")) <$> states) in
  let success_txns := len remitted in
  let success_rate :=
    if (0 <? total_txns)%nat
    then float_mul (truediv (of_int success_txns) (of_int total_txns)) 100
    else 0%Q in
  total_amount ← getitem merchant_data "Amount" ≫= Pandas.sum;
  success_amount ← getitem remitted "Amount" ≫= Pandas.sum;
  let state_counts := pd.value_counts states in
  state_amounts ←
    (amounts ← getitem merchant_data "Amount";
     xs ← for_each as_float amounts;
     Ok (pd.groupby_sum states xs));
  Ok {| merchant_id := merchant_id;
        total_txns := total_txns;
        success_txns := success_txns;
        success_rate := round2 success_rate;
        total_amount := total_amount;
        success_amount := success_amount;
        state_counts := state_counts;
        state_amounts := state_amounts |}.


Section Dates.
Context {io : External}.

(** The bare [except] turns whatever the [try] block raises into
    [(None, None)]. *)
Definition get_merchant_date_range (df : DataFrame) (merchant_id : cell)
  : outcome (option Z * option Z) :=
  ids ← getitem df "Merchant ID";
  let merchant_data := getitem_mask df ((λ c, py_eq c merchant_id) <$> ids) in
  if bool_decide (len merchant_data = 0%nat) then Ok (None, None)
  else if negb (bool_decide ("Issue Timestamp" ∈ columns merchant_data)) then Ok (None, None)
  else
    let attempt :=
      column ← getitem merchant_data "Issue Timestamp";
      parsed_dates ← to_datetime column;
      let valid_dates := omap id parsed_dates in
      match valid_dates with
      | [] => Ok (None, None)
      | d :: ds => Ok (Some (foldr Z.min d ds), Some (foldr Z.max d ds))
      end in
    match attempt with
    | Ok range => Ok range
    | Raise _ => Ok (None, None)
    end.

End Dates.

(** The script's test before anything is computed or drawn:
    [df is not None and not df.empty]; otherwise "No valid data found". *)
Definition has_valid_data (df : option DataFrame) : bool :=
  match df with
  | Some d => negb (is_empty d)
  | None => false
  end.

Section Display.
(** [pd.Timestamp(d).strftime('%d-%b-%Y')] *)
Variable strftime : Z → string.

Definition format_date_range (min_date max_date : option Z) : string :=
  match min_date, max_date with
  | Some min_date, Some max_date =>
      let min_str := strftime min_date in
      let max_str := strftime max_date in
      if bool_decide (min_str = max_str) then min_str
      else min_str +:+ " to " +:+ max_str
  | _, _ => "N/A"
  end.

End Display.

(** [max(items, key=lambda x: x[1])]: the first of the items that no
    other exceeds. *)
Definition max_by_count (first : cell * nat) (rest : list (cell * nat)) : cell * nat :=
  foldl (λ best item, if (best.2 <? item.2)%nat then item else best) first rest.

(** The "Top State" of a merchant's line in [generate_pdf_report], from
    [stats['state_counts'].items()]. *)
Definition top_state (items : list (cell * nat)) : cell :=
  match items with
  | [] => CStr "N/A"
  | first :: rest => (max_by_count first rest).1
  end.

(** The loop of [send_report_via_email] over the lines of [config.txt].
    A line that holds the sign still holds it once stripped, so the split
    gives two parts. *)
Definition read_config (lines : list string) : gmap string string :=
  foldl (λ (config : gmap string string) line,
           if contains "="%char line then
             match split_once "="%char (strip line) with
             | Some (key, value) => <[strip key := strip value]> config
             | None => config
             end
           else config) ∅ lines.




End Dashboard_New_PDF1.


(** ** Reference notions the statements are written against *)

(** The fallback label as the specification words it: first letter
    upper-cased, the remaining characters unchanged. *)
Definition capitalize_first (s : string) : string :=
  match s with
  | EmptyString => EmptyString
  | String c s' => String (upper_char c) s'
  end.

(** A cell that holds text. *)
Definition is_text (c : cell) : bool :=
  match c with CStr _ => true | _ => false end.

(** Every [State] cell of the frame is text, as [normalize_state] leaves it. *)
Definition state_normalized (df : DataFrame) : Prop :=
  Forall (λ c, Forall (λ x, is_text x = true) c.2) (labelled "State" (series df)).

(** [sum(d.values())] *)
Definition values_sum (d : gmap cell nat) : nat :=
  sum_list (map_to_list d).*2.

(** The source columns of [df] whose trimmed name equals [req_col] up to
    case, relabelled [req_col], left to right. *)
Definition matching_columns (req_col : string) (df : DataFrame) : list (string * Series) :=
  (λ c, (req_col, c.2)) <$> filter (λ c, lower (strip c.1) = lower req_col) (series df).

(** The rows of [df] that belong to [merchant], when there is exactly one
    [Merchant ID] column. *)
Definition merchant_rows (df : DataFrame) (merchant : cell) : outcome DataFrame :=
  ids ← getitem df "Merchant ID";
  Ok (getitem_mask df ((λ c, py_eq c merchant) <$> ids)).

(** How many entries of the column [s] are [k]. *)
Definition occurrences (k : cell) (s : Series) : nat :=
  length (filter (λ c, c = k) s).

(** The rate before rounding, from the two counts. *)
Definition rate_of (success total : nat) : Q :=
  if (0 <? total)%nat then float_mul (truediv (of_int success) (of_int total)) 100 else 0%Q.

(** The amounts of the rows whose state is [k]. *)
Definition amounts_in_state (k : cell) (states : Series) (xs : list float) : list float :=
  (filter (λ r, r.1 = k) (zip states xs)).*2.

(** The timestamps that parse among the [Issue Timestamp] values of the
    rows [rows]; none when the column cannot be read or parsed at all. *)
Definition parseable_timestamps {io : External} (rows : DataFrame) : list Z :=
  match getitem rows "Issue Timestamp" ≫= to_datetime with
  | Ok parsed => omap id parsed
  | Raise _ => []
  end.

(** A cell whose text, if it holds text, is ASCII. *)
Definition ascii_text (c : cell) : bool :=
  match c with CStr s => isascii s | _ => true end.

(** A frame whose text cells are all ASCII. *)
Definition ascii_frame (df : DataFrame) : Prop :=
  Forall (λ col : string * Series, Forall (λ c, ascii_text c = true) col.2) (series df).

(** The body of the [try] in the loop of [process_files]: reading one file
    and cleaning what was read. *)
Definition read_and_clean {io : External} (file : UploadedFile) : outcome DataFrame :=
  df ← (if endswith (name file) ".csv" then read_csv file else read_excel file);
  Dashboard_New.clean_dataframe df.

(** A formatted number without its thousands separators. *)
Definition without_separators (s : string) : string :=
  string_of_list_ascii (filter (λ c, c ≠ ","%char) (list_ascii_of_string s)).

(** The natural number a formatted number stands for, if any. *)
Definition read_amount (s : string) : option N :=
  N.of_uint <$> NilZero.uint_of_string (without_separators s).

(** ** Sample data *)

Definition num (z : Z) : cell := CNum (FFin (Q2Qc (inject_Z z))).

(** A reader of unsigned decimal numerals, enough for the samples. *)
Fixpoint digits (s : string) (acc : N) : option N :=
  match s with
  | EmptyString => Some acc
  | String c s' =>
      let n := code c in
      if ((48 <=? n) && (n <=? 57))%N then digits s' (acc * 10 + (n - 48))%N else None
  end.

Definition numeral (s : string) : option Z :=
  match s with
  | EmptyString => None
  | _ => Z.of_N <$> digits s 0%N
  end.

(** Uploads that come with the frame the reader makes of them. *)
Definition sample_io : External := {|
  UploadedFile := string * outcome DataFrame;
  name := fst;
  read_csv := snd;
  read_excel := snd;
  numeric_literal := λ s, from_option (λ z, FFin (Q2Qc (inject_Z z))) FNaN (numeral s);
  to_datetime := λ column,
    Ok ((λ c, match c with CStr s => numeral s | _ => None end) <$> column)
|}.

(** One merchant, one rejected transaction. *)
Definition rejected_only : DataFrame := {|
  index_len := 1;
  series := [("Merchant ID", [CStr "M1"]); ("Amount", [num 250]); ("State", [CStr "Rejected"])]
|}.

(** Two merchants, three transactions. *)
Definition three_rows : DataFrame := {|
  index_len := 3;
  series := [("Merchant ID", [CStr "M1"; CStr "M1"; CStr "M2"]);
             ("Amount", [num 5; num 7; num 1]);
             ("Issue Timestamp", [CStr "20"; CStr "n/a"; CStr "10"]);
             ("State", [CStr "Rejected"; CStr "Remitted"; CStr "Remitted"])]
|}.

Definition three_rows_M1 : MerchantStats := {|
  merchant_id := CStr "M1";
  total_txns := 2;
  success_txns := 1;
  success_rate := round2 (float_mul (truediv (of_int 1) (of_int 2)) 100);
  total_amount := nansum [FFin (Q2Qc 5); FFin (Q2Qc 7)];
  success_amount := nansum [FFin (Q2Qc 7)];
  state_counts := pd.value_counts [CStr "Rejected"; CStr "Remitted"];
  state_amounts := pd.groupby_sum [CStr "Rejected"; CStr "Remitted"] [FFin (Q2Qc 5); FFin (Q2Qc 7)]
|}.

(** Two headers that both spell [State]. *)
Definition two_state_headers : DataFrame := {|
  index_len := 1;
  series := [("state", [CStr "Remitted"]); ("STATE", [CStr "Rejected"])]
|}.

(** A file with a header line and no data line. *)
Definition header_only : DataFrame := {|
  index_len := 0;
  series := [("Merchant ID", []); ("Amount", []); ("State", [])]
|}.

(** A file whose second amount reads [inf] and whose third amount and state
    are left blank. *)
Definition odd_amounts : DataFrame := {|
  index_len := 3;
  series := [("Merchant ID", [CStr "M1"; CStr "M1"; CStr "M1"]);
             ("Amount", [num 40; CNum FPInf; CNum FNaN]);
             ("State", [CStr "remitted"; CStr "On Hold"; CNum FNaN])]
|}.

(** Headers in mixed case, with blanks, and one that is not wanted. *)
Definition mixed_headers : DataFrame := {|
  index_len := 1;
  series := [("merchant id", [CStr "M1"]); ("AMOUNT", [num 10]); ("State ", [CStr "remitted"]);
             ("Notes", [CStr "x"])]
|}.

(** Three uploads: one read, one that pandas cannot read, one read with
    other headers. *)
Definition sample_uploads : list (string * outcome DataFrame) :=
  [("a.csv", Ok odd_amounts);
   ("b.xlsx", Raise ParserError);
   ("c.xlsx", Ok {| index_len := 1;
                    series := [("STATE", [CStr "onhold"]); ("merchant id", [CStr "M2"]);
                               ("amount", [CStr "1,200 PKR"])] |})].

(** The table [process_files] makes of them. *)
Definition sample_unified : DataFrame := {|
  index_len := 4;
  series := [("Merchant ID", [CStr "M1"; CStr "M1"; CStr "M1"; CStr "M2"]);
             ("Amount", [num 40; CNum FPInf; CNum fzero; CNum fzero]);
             ("State", [CStr "Remitted"; CStr "On hold"; CStr "Unknown"; CStr "On hold"])]
|}.

(** * Properties *)

Import Dashboard_New.

(** ** Python text *)

Example lower_mixed : lower "On Hold 7" = "on hold 7".
Proof. reflexivity. Qed.

Example strip_both : strip "  In  Review " = "In  Review".
Proof. reflexivity. Qed.

Example capitalize_mixed : capitalize "fAILED txn" = "Failed txn".
Proof. reflexivity. Qed.

Example endswith_csv : endswith "jan.csv" ".csv" = true ∧ endswith "csv" ".csv" = false.
Proof. split; reflexivity. Qed.

Lemma upper_char_space c : isspace c = true → upper_char c = c.
Proof.
  destruct c as [[] [] [] [] [] [] [] []]; vm_compute; congruence.
Qed.

Lemma lstrip_blank_head c s : lstrip (String c s) = "" → isspace c = true.
Proof. simpl. destruct (isspace c); [done | discriminate]. Qed.

Lemma rstrip_blank_head c s : rstrip (String c s) = "" → isspace c = true.
Proof.
  simpl. destruct (rstrip s); [| discriminate].
  destruct (isspace c); [done | discriminate].
Qed.

Lemma rstrip_lstrip_head c s : isspace c = false → lstrip (String c s) = String c s.
Proof. simpl. by intros ->. Qed.

(** A string that strips to nothing starts with a blank, if it starts at all. *)
Lemma strip_blank_head c s : strip (String c s) = "" → isspace c = true.
Proof.
  unfold strip. intros Hs. destruct (isspace c) eqn:Hc; [done |].
  rewrite (rstrip_lstrip_head _ _ Hc) in Hs.
  apply rstrip_blank_head in Hs. congruence.
Qed.

(** ** [normalize_state] *)

Example normalize_state_variants :
  normalize_state (CStr "OnHold") = Ok "On hold"
  ∧ normalize_state (CStr "on hold") = Ok "On hold"
  ∧ normalize_state (CStr " On Hold ") = Ok "On hold"
  ∧ normalize_state (CStr "REMITTED") = Ok "Remitted".
Proof. repeat split; reflexivity. Qed.

Example normalize_state_number : normalize_state (num 3) = Raise AttributeError.
Proof. reflexivity. Qed.

(** Text always gets a label: the table's, or [capitalize] of the text as
    it came in. *)
Lemma normalize_state_text s :
  normalize_state (CStr s) = Ok (default (capitalize s) (state_map !! lower (strip s))).
Proof. reflexivity. Qed.

Lemma normalize_state_isna c : pd.isna c = true → normalize_state c = Ok "Unknown".
Proof. unfold normalize_state. by intros ->. Qed.

(** C3, as the claim has it, fails: the fallback lower-cases what follows
    the first letter.  [FAILED] is no key of the table, and comes back as
    [Failed], not as [FAILED]. *)
Lemma normalize_state_fallback_lowers_rest :
  state_map !! lower (strip "FAILED") = None
  ∧ normalize_state (CStr "FAILED") = Ok "Failed"
  ∧ normalize_state (CStr "FAILED") ≠ Ok (capitalize_first (strip "FAILED")).
Proof.
  split; [vm_compute; reflexivity |].
  split; [vm_compute; reflexivity | vm_compute; discriminate].
Qed.

(** C3, amended: text that carries no surrounding whitespace and whose
    lower-cased form is no key of the table comes back as Python's
    [capitalize] makes it: first character upper-cased, every other
    character lower-cased. *)
Theorem normalize_state_fallback (s : string) :
  strip s = s →
  state_map !! lower (strip s) = None →
  normalize_state (CStr s) = Ok (capitalize (strip s)).
Proof.
  intros Hs Hkey. rewrite normalize_state_text, Hkey. simpl. by rewrite Hs.
Qed.

Lemma normalize_state_fallback_witness :
  normalize_state (CStr "pENDING review") = Ok (capitalize (strip "pENDING review")).
Proof.
  apply (normalize_state_fallback "pENDING review"); vm_compute; reflexivity.
Defined.

(** C4, as the claim has it, fails: the empty string is not a missing value
    and comes back empty. *)
Lemma normalize_state_empty_string :
  normalize_state (CStr "") = Ok "" ∧ normalize_state (CStr "") ≠ Ok "Unknown".
Proof. split; [reflexivity | vm_compute; discriminate]. Qed.

(** C4, amended: every missing value ([None], NaN) becomes [Unknown]; the
    empty string comes back as the empty string, and no text made of
    whitespace alone becomes [Unknown]. *)
Theorem normalize_state_unknown :
  (∀ c, pd.isna c = true → normalize_state c = Ok "Unknown")
  ∧ normalize_state (CStr "") = Ok ""
  ∧ (∀ s, strip s = "" → normalize_state (CStr s) ≠ Ok "Unknown").
Proof.
  split; [exact normalize_state_isna |]. split; [reflexivity |].
  intros s Hs. rewrite normalize_state_text, Hs.
  change (state_map !! lower "") with (@None string). simpl.
  destruct s as [| c s]; [discriminate |].
  apply strip_blank_head in Hs as Hc. simpl.
  rewrite (upper_char_space _ Hc). intros [= -> _]. discriminate.
Qed.

Lemma normalize_state_unknown_witness :
  normalize_state CNone = Ok "Unknown"
  ∧ normalize_state (CNum FNaN) = Ok "Unknown"
  ∧ normalize_state (CStr "   ") ≠ Ok "Unknown".
Proof.
  destruct normalize_state_unknown as (Hna & _ & Hblank).
  split; [apply (Hna CNone); reflexivity |].
  split; [apply (Hna (CNum FNaN)); reflexivity |].
  apply (Hblank "   "); reflexivity.
Defined.

(** ** Frames *)

Lemma zip_fmap_fst_snd {A B C} (f : A → C) (l : list (A * B)) :
  zip (f <$> l.*1) l.*2 = (λ c, (f c.1, c.2)) <$> l.
Proof. induction l as [| [a b] l IH]; [done |]. rewrite !fmap_cons. simpl. by f_equal. Qed.

Lemma labelled_app key (a b : list (string * Series)) :
  labelled key (a ++ b) = labelled key a ++ labelled key b.
Proof. apply list.filter_app. Qed.

Lemma labelled_nil_iff key (cols : list (string * Series)) :
  labelled key cols = [] ↔ key ∉ cols.*1.
Proof.
  unfold labelled. induction cols as [| c cols IH].
  - split; [intros _; apply not_elem_of_nil | done].
  - rewrite filter_cons, fmap_cons, not_elem_of_cons.
    destruct (decide (c.1 = key)) as [Hc | Hc].
    + split; [discriminate | intros [? _]; congruence].
    + rewrite IH. split; [intros ?; split; [congruence | done] | tauto].
Qed.

Lemma labelled_relabel key (f : string → string) (cols : list (string * Series)) :
  labelled key ((λ c, (f c.1, c.2)) <$> cols)
  = (λ c, (key, c.2)) <$> filter (λ c, f c.1 = key) cols.
Proof.
  unfold labelled. induction cols as [| c cols IH]; [done |].
  rewrite fmap_cons, !filter_cons, IH. simpl.
  destruct (decide (f c.1 = key)) as [<- |]; done.
Qed.

Lemma NoDup_fmap_inj_on {A B} (f : A → B) (l : list A) x y :
  NoDup (f <$> l) → x ∈ l → y ∈ l → f x = f y → x = y.
Proof.
  induction l as [| a l IH]; [by intros _ ?%elem_of_nil |].
  intros Hnd Hx Hy Hf. rewrite fmap_cons in Hnd. apply list.NoDup_cons in Hnd as [Ha Hnd].
  apply elem_of_cons in Hx as [-> | Hx]; apply elem_of_cons in Hy as [-> | Hy];
    [done | | | by apply IH].
  - destruct Ha. rewrite Hf. by apply list_elem_of_fmap_2.
  - destruct Ha. rewrite <- Hf. by apply list_elem_of_fmap_2.
Qed.

(** ** [clean_dataframe] *)

Lemma first_required_Some col reqs req_col :
  first_required col reqs = Some req_col → req_col ∈ reqs ∧ lower col = lower req_col.
Proof.
  induction reqs as [| r reqs IH]; simpl; [discriminate |].
  case_bool_decide as Hr.
  - intros [= <-]. split; [left | done].
  - intros [Hin Hl]%IH. split; [by right | done].
Qed.

Lemma first_required_None col reqs req_col :
  first_required col reqs = None → req_col ∈ reqs → lower col ≠ lower req_col.
Proof.
  induction reqs as [| r reqs IH]; simpl; [by intros _ ?%elem_of_nil |].
  case_bool_decide as Hr; [discriminate |].
  intros Hnone [-> | Hin]%elem_of_cons; [done | by apply IH].
Qed.

Lemma REQUIRED_COLUMNS_lower_NoDup : NoDup (lower <$> REQUIRED_COLUMNS).
Proof. by apply (bool_decide_unpack _). Qed.

Lemma REQUIRED_COLUMNS_NoDup : NoDup REQUIRED_COLUMNS.
Proof. by apply (bool_decide_unpack _). Qed.

#[local] Opaque REQUIRED_COLUMNS.

(** The label a trimmed header ends up with. *)
Lemma canonical_label col req_col :
  req_col ∈ REQUIRED_COLUMNS →
  default col (first_required col REQUIRED_COLUMNS) = req_col ↔ lower col = lower req_col.
Proof.
  intros Hreq. destruct (first_required col REQUIRED_COLUMNS) as [r |] eqn:Hfirst; simpl.
  - apply first_required_Some in Hfirst as [Hr Hl]. split; [by intros <- |].
    intros Hl'. apply (NoDup_fmap_inj_on lower REQUIRED_COLUMNS);
      [apply REQUIRED_COLUMNS_lower_NoDup | done | done | congruence].
  - split; [by intros -> |].
    intros Hl. by destruct (first_required_None _ _ _ Hfirst Hreq).
Qed.

(** The dictionary the outer loop builds. *)
Lemma column_mapping_lookup (reqs cols : list string) (m : gmap string string) col :
  foldl (λ (m : gmap string string) col,
           match first_required col reqs with
           | Some req_col => <[col := req_col]> m
           | None => m
           end) m cols !! col
  = if decide (col ∈ cols)
    then from_option Some (m !! col) (first_required col reqs)
    else m !! col.
Proof.
  revert m. induction cols as [| c cols IH]; intros m.
  - by rewrite decide_False by apply not_elem_of_nil.
  - cbn [foldl]. rewrite IH. destruct (decide (col ∈ cols)) as [Hin | Hin].
    + rewrite decide_True by (by right).
      destruct (first_required col reqs) eqn:Hcol; [done |]. cbn [from_option].
      destruct (first_required c reqs) eqn:Hc; [| done].
      rewrite lookup_insert_ne; [done | congruence].
    + destruct (decide (col = c)) as [-> | Hne].
      * rewrite decide_True by left.
        destruct (first_required c reqs); cbn [from_option]; [by rewrite lookup_insert_eq | done].
      * rewrite decide_False by (rewrite elem_of_cons; tauto).
        destruct (first_required c reqs); [by rewrite lookup_insert_ne | done].
Qed.

(** What [clean_dataframe] returns, in full: for each required name in
    turn, every source column that spells it, under that name. *)
Lemma clean_dataframe_spec (df : DataFrame) :
  clean_dataframe df
  = Ok {| index_len := index_len df;
          series := REQUIRED_COLUMNS ≫= λ req_col, matching_columns req_col df |}.
Proof.
  unfold clean_dataframe.
  set (stripped := set_columns df (strip <$> columns df)).
  set (mapping := foldl _ ∅ (columns stripped)).
  assert (Hstripped : series stripped = (λ c, (strip c.1, c.2)) <$> series df)
    by apply zip_fmap_fst_snd.
  assert (Hrenamed : series (rename stripped mapping)
                     = (λ c, (default (strip c.1)
                                (first_required (strip c.1) REQUIRED_COLUMNS), c.2)) <$> series df).
  { unfold rename. cbn [series]. rewrite Hstripped, <- list_fmap_compose. apply list_fmap_ext.
    intros i c Hc. simpl. f_equal. unfold mapping. rewrite column_mapping_lookup.
    rewrite decide_True.
    - rewrite lookup_empty. by destruct (first_required _ _).
    - unfold columns. rewrite Hstripped, <- list_fmap_compose.
      apply list_elem_of_fmap. exists c. split; [done |]. by eapply list_elem_of_lookup_2. }
  set (renamed := rename stripped mapping) in *.
  assert (Hlab : ∀ req_col, req_col ∈ REQUIRED_COLUMNS →
            labelled req_col (series renamed) = matching_columns req_col df).
  { intros req_col Hreq. rewrite Hrenamed.
    rewrite (labelled_relabel req_col (λ l, default (strip l) (first_required (strip l) _))).
    unfold matching_columns. f_equal. apply list_filter_iff.
    intros c. by apply canonical_label. }
  unfold getitem_list.
  assert (forallb (λ k, bool_decide (k ∈ columns renamed))
            (filter (λ col, col ∈ columns renamed) REQUIRED_COLUMNS) = true) as ->.
  { apply Is_true_true, forallb_True, list.Forall_forall.
    intros k [Hk _]%list_elem_of_filter. by apply bool_decide_pack. }
  f_equal. f_equal.
  generalize Hlab. generalize REQUIRED_COLUMNS as reqs.
  induction reqs as [| r reqs IH]; intros Hreqs; [done |].
  rewrite filter_cons. simpl.
  rewrite <- (Hreqs r) by left.
  destruct (decide (r ∈ columns renamed)) as [Hr | Hr].
  - simpl. f_equal. apply IH. intros ? ?. apply Hreqs. by right.
  - rewrite (proj2 (labelled_nil_iff r _) Hr). simpl.
    apply IH. intros ? ?. apply Hreqs. by right.
Qed.

Lemma matching_columns_labels req_col df :
  Forall (λ c, c.1 = req_col) (matching_columns req_col df).
Proof.
  unfold matching_columns. apply Forall_fmap, list.Forall_forall. by intros.
Qed.

Lemma labelled_all key (cols : list (string * Series)) :
  Forall (λ c, c.1 = key) cols → labelled key cols = cols.
Proof.
  unfold labelled. induction 1 as [| c cols Hc _ IH]; [done |].
  by rewrite filter_cons, decide_True, IH.
Qed.

Lemma labelled_none key key' (cols : list (string * Series)) :
  key ≠ key' → Forall (λ c, c.1 = key') cols → labelled key cols = [].
Proof.
  unfold labelled. intros Hne. induction 1 as [| c cols Hc _ IH]; [done |].
  rewrite filter_cons, decide_False, IH; [done | congruence].
Qed.

Lemma labelled_matching_columns (reqs : list string) req_col df :
  NoDup reqs → req_col ∈ reqs →
  labelled req_col (reqs ≫= λ k, matching_columns k df) = matching_columns req_col df.
Proof.
  induction 1 as [| r reqs Hr Hnd IH]; [by intros ?%elem_of_nil |].
  intros Hin. rewrite bind_cons, labelled_app.
  destruct (decide (req_col = r)) as [-> | Hne].
  - rewrite (labelled_all r) by apply matching_columns_labels.
    enough (labelled r (reqs ≫= λ k, matching_columns k df) = []) as -> by apply app_nil_r.
    clear -Hr. induction reqs as [| k reqs IH]; [done |].
    apply not_elem_of_cons in Hr as [Hk Hr].
    rewrite bind_cons, labelled_app, IH by done.
    rewrite (labelled_none r k); [done | done | apply matching_columns_labels].
  - rewrite (labelled_none req_col r) by (done || apply matching_columns_labels).
    apply IH. apply elem_of_cons in Hin as [|]; done.
Qed.

#[local] Transparent REQUIRED_COLUMNS.

(** C5, as the claim has it, fails: with the headers [state] and [STATE]
    the cleaned frame has two [State] columns, the two source columns in
    source order, not one column with the data of the later. *)
Lemma clean_dataframe_keeps_both_columns :
  ∃ out, clean_dataframe two_state_headers = Ok out
    ∧ labelled "State" (series out)
      = [("State", [CStr "Remitted"]); ("State", [CStr "Rejected"])]
    ∧ labelled "State" (series out) ≠ [("State", [CStr "Rejected"])].
Proof.
  eexists. split; [vm_compute; reflexivity |].
  split; [vm_compute; reflexivity | vm_compute; discriminate].
Qed.

(** C5, amended: no rename overwrites another.  Under each required name
    the cleaned frame holds every source column whose trimmed name equals
    it up to case, each with its own data, in source order; two colliding
    headers give two columns of the same name. *)
Theorem clean_dataframe_collision (df : DataFrame) (req_col : string) :
  req_col ∈ REQUIRED_COLUMNS →
  ∃ out, clean_dataframe df = Ok out
    ∧ labelled req_col (series out) = matching_columns req_col df.
Proof.
  intros Hreq. eexists. split; [apply clean_dataframe_spec |].
  apply labelled_matching_columns; [apply REQUIRED_COLUMNS_NoDup | done].
Qed.

Lemma clean_dataframe_collision_witness :
  ∃ out, clean_dataframe two_state_headers = Ok out
    ∧ labelled "State" (series out) = matching_columns "State" two_state_headers.
Proof.
  apply (clean_dataframe_collision two_state_headers "State").
  vm_compute. do 5 right. left.
Defined.

(** ** [process_files] *)

Lemma bind_Ok {A B} (m : outcome A) (f : A → outcome B) b :
  m ≫= f = Ok b → ∃ a, m = Ok a ∧ f a = Ok b.
Proof. destruct m as [a | e]; [by exists a | discriminate]. Qed.

Lemma for_each_length {A B} (f : A → outcome B) l ys :
  for_each f l = Ok ys → length ys = length l.
Proof.
  revert ys. induction l as [| x l IH]; intros ys; simpl; [by intros [= <-] |].
  intros (y & _ & (ys' & Hys & [= <-])%bind_Ok)%bind_Ok. simpl. by rewrite (IH ys').
Qed.

Lemma for_each_total {A B} (f : A → outcome B) (l : list A) :
  Forall (λ x, ∃ y, f x = Ok y) l → ∃ ys, for_each f l = Ok ys.
Proof.
  induction 1 as [| x l [y Hy] _ [ys Hys]]; [by exists [] |].
  exists (y :: ys). simpl. by rewrite Hy, Hys.
Qed.

Lemma columns_setitem df key values : columns (setitem df key values) = columns df.
Proof.
  unfold columns, setitem. cbn [series]. rewrite <- list_fmap_compose.
  apply list_fmap_ext. intros i c _. simpl. by case_bool_decide.
Qed.

Lemma labelled_setitem df key values :
  labelled key (series (setitem df key values))
  = (λ _, (key, values)) <$> labelled key (series df).
Proof.
  unfold labelled, setitem. cbn [series].
  induction (series df) as [| c cols IH]; [done |].
  rewrite fmap_cons, !filter_cons, IH. case_bool_decide as Hc; simpl.
  - by rewrite !decide_True by done.
  - by rewrite !decide_False by done.
Qed.

Lemma labelled_setitem_ne df key key' values :
  key ≠ key' →
  labelled key' (series (setitem df key values)) = labelled key' (series df).
Proof.
  intros Hne. unfold labelled, setitem. cbn [series].
  induction (series df) as [| c cols IH]; [done |].
  rewrite fmap_cons, !filter_cons, IH. case_bool_decide as Hc; simpl; [| done].
  rewrite !decide_False; [done | congruence | done].
Qed.

Lemma getitem_unique df key c : labelled key (series df) = [c] → getitem df key = Ok c.2.
Proof. unfold getitem. by intros ->. Qed.

Section Files_properties.
Context {io : External}.

(** The three steps of [process_files] after the reading loop. *)
Lemma process_files_Some files df :
  process_files files = Ok (Some df) →
  ∃ combined normalized,
    pd.concat (read_files files).1 = Ok combined
    ∧ (if bool_decide ("State" ∈ columns combined)
       then ∃ c states, labelled "State" (series combined) = [c]
              ∧ for_each normalize_state c.2 = Ok states
              ∧ normalized = setitem combined "State" (CStr <$> states)
       else normalized = combined)
    ∧ (if bool_decide ("Amount" ∈ columns normalized)
       then ∃ c, labelled "Amount" (series normalized) = [c]
              ∧ df = setitem normalized "Amount"
                       ((λ x, CNum (pd.fillna fzero (pd.to_numeric x))) <$> c.2)
       else df = normalized).
Proof.
  unfold process_files. destruct (read_files files).1 as [| d all_data] eqn:Hall; [discriminate |].
  intros (combined & Hconcat & Hrest)%bind_Ok.
  apply bind_Ok in Hrest as (normalized & Hstate & Hrest).
  apply bind_Ok in Hrest as (final & Hamount & [= <-]).
  exists combined, normalized. split; [done |]. split.
  - destruct (bool_decide ("State" ∈ columns combined)); [| by injection Hstate].
    destruct (labelled "State" (series combined)) as [| c [| ? ?]]; try discriminate.
    apply bind_Ok in Hstate as (states & Hstates & [= <-]). by exists c, states.
  - destruct (bool_decide ("Amount" ∈ columns normalized)); [| by injection Hamount].
    destruct (labelled "Amount" (series normalized)) as [| c [| ? ?]]; try discriminate.
    injection Hamount as <-. by exists c.
Qed.

(** Once something was read, [process_files] does not answer [None]. *)
Lemma process_files_not_None files :
  (read_files files).1 ≠ [] → process_files files ≠ Ok None.
Proof.
  unfold process_files. destruct (read_files files).1 as [| d all_data]; [done |].
  intros _ (combined & _ & Hrest)%bind_Ok.
  apply bind_Ok in Hrest as (normalized & _ & Hrest).
  by apply bind_Ok in Hrest as (final & _ & ?).
Qed.

(** C6, amended: [process_files] answers [None] exactly when no file was
    read and cleaned.  A combined table without rows is returned as a
    table; it is the script's own test, [df is not None and not df.empty],
    that keeps an absent or empty table from the statistics. *)
Theorem process_files_no_valid_data (files : list UploadedFile) :
  (process_files files = Ok None ↔ (read_files files).1 = [])
  ∧ (∀ df, has_valid_data df = true ↔ ∃ d, df = Some d ∧ len d ≠ 0%nat ∧ columns d ≠ []).
Proof.
  split.
  - split.
    + intros Hnone. destruct ((read_files files).1) eqn:Hall; [done |].
      destruct (process_files_not_None files); [by rewrite Hall | done].
    + unfold process_files. by intros ->.
  - intros [d |]; simpl.
    + unfold is_empty, len, columns. rewrite negb_true_iff, orb_false_iff.
      rewrite !bool_decide_eq_false. split.
      * intros [Hrows Hcols]. exists d. split_and!; [done | done |].
        by destruct (series d).
      * intros (? & [= <-] & Hrows & Hcols). split; [done |].
        by destruct (series d).
    + split; [discriminate | by intros (? & ? & _)].
Qed.

(** Every [State] cell that [process_files] returns is text. *)
Lemma process_files_state_normalized files df :
  process_files files = Ok (Some df) → state_normalized df.
Proof.
  intros (combined & normalized & _ & Hstate & Hamount)%process_files_Some.
  assert (Hnorm : state_normalized normalized).
  { unfold state_normalized. clear Hamount.
    destruct (bool_decide ("State" ∈ columns combined)) eqn:Hin.
    - destruct Hstate as (c & states & Hc & _ & ->).
      rewrite labelled_setitem, Hc. repeat constructor. simpl.
      apply Forall_fmap, list.Forall_forall. by intros.
    - subst normalized. apply bool_decide_eq_false, labelled_nil_iff in Hin.
      by rewrite Hin. }
  destruct (bool_decide ("Amount" ∈ columns normalized)); [| by subst df].
  destruct Hamount as (c & _ & ->). unfold state_normalized.
  by rewrite labelled_setitem_ne.
Qed.

(** C7, amended: where [process_files] returns a table with an [Amount]
    column, the table has the rows of the concatenated table, the column
    has one entry per source value, and every entry is a number that is
    not NaN: the number read in the source value, or exactly 0 when nothing
    could be read.  An infinity in the source stays an infinity. *)
Theorem process_files_amount (files : list UploadedFile) (df : DataFrame) :
  process_files files = Ok (Some df) →
  "Amount" ∈ columns df →
  ∃ combined source amounts,
    pd.concat (read_files files).1 = Ok combined
    ∧ getitem combined "Amount" = Ok source
    ∧ getitem df "Amount" = Ok amounts
    ∧ len df = len combined
    ∧ length amounts = length source
    ∧ ∀ i c, source !! i = Some c →
        ∃ x, amounts !! i = Some (CNum x)
          ∧ isnan x = false
          ∧ (isnan (pd.to_numeric c) = true → x = fzero)
          ∧ (isnan (pd.to_numeric c) = false → x = pd.to_numeric c).
Proof.
  intros (combined & normalized & Hconcat & Hstate & Hamount)%process_files_Some Hin.
  assert (Hsame : labelled "Amount" (series normalized) = labelled "Amount" (series combined)
                  ∧ len normalized = len combined).
  { clear Hamount. destruct (bool_decide ("State" ∈ columns combined)); [| by subst].
    destruct Hstate as (? & ? & _ & _ & ->). by rewrite labelled_setitem_ne. }
  destruct Hsame as [Hlab Hlen].
  rewrite bool_decide_true in Hamount.
  2:{ destruct (bool_decide ("Amount" ∈ columns normalized)) eqn:Hcol.
      - by apply bool_decide_eq_true in Hcol.
      - by subst df. }
  destruct Hamount as (c & Hc & ->).
  exists combined, c.2, ((λ x, CNum (pd.fillna fzero (pd.to_numeric x))) <$> c.2).
  split; [done |]. split; [apply getitem_unique; congruence |].
  split; [unfold getitem; by rewrite labelled_setitem, Hc |].
  split; [done |]. split; [apply length_fmap |].
  intros i x Hx. exists (pd.fillna fzero (pd.to_numeric x)).
  split; [by rewrite list_lookup_fmap, Hx |].
  unfold pd.fillna. destruct (isnan (pd.to_numeric x)) eqn:Hnan; [by split_and! | by split_and!].
Qed.

End Files_properties.

(** C6, as the claim has it, fails: a file with a header line and no data
    line is read and cleaned, the combined table has no rows, and what
    [process_files] returns is that table, not [None]. *)
Lemma process_files_returns_empty_table :
  ∃ df, process_files (io := sample_io) [("empty.csv", Ok header_only)] = Ok (Some df)
    ∧ len df = 0%nat.
Proof. eexists. split; [vm_compute; reflexivity | reflexivity]. Qed.

Lemma process_files_no_valid_data_witness :
  process_files (io := sample_io) [("broken.xlsx", Raise ParserError)] = Ok None.
Proof.
  apply (proj1 (process_files_no_valid_data (io := sample_io) _)). reflexivity.
Defined.

(** C7, as the claim has it, fails: an infinite amount in a source file is
    a number to [pd.to_numeric] and not a missing value to [fillna]; it is
    in the [Amount] column that [process_files] returns, and is not finite. *)
Lemma process_files_keeps_infinite_amount :
  ∃ df amounts,
    process_files (io := sample_io) [("amounts.csv", Ok odd_amounts)] = Ok (Some df)
    ∧ getitem df "Amount" = Ok amounts
    ∧ amounts = [num 40; CNum FPInf; CNum fzero]
    ∧ ¬ Forall (λ c, ∃ x, c = CNum x ∧ isfinite x = true) amounts.
Proof.
  eexists _, _. split; [vm_compute; reflexivity |].
  split; [vm_compute; reflexivity |]. split; [reflexivity |].
  intros Hall. apply list.Forall_cons in Hall as [_ Hall].
  apply list.Forall_cons in Hall as [(x & [= <-] & Hfin) _]. discriminate.
Qed.

Lemma process_files_amount_witness :
  ∃ combined source amounts,
    pd.concat (read_files (io := sample_io) [("amounts.csv", Ok odd_amounts)]).1 = Ok combined
    ∧ getitem combined "Amount" = Ok source
    ∧ getitem (setitem (setitem odd_amounts "State"
                          [CStr "Remitted"; CStr "On hold"; CStr "Unknown"])
                 "Amount" [num 40; CNum FPInf; CNum fzero]) "Amount" = Ok amounts
    ∧ 3%nat = len combined
    ∧ length amounts = length source
    ∧ ∀ (i : nat) c, source !! i = Some c →
        ∃ x, amounts !! i = Some (CNum x)
          ∧ isnan x = false
          ∧ (isnan (pd.to_numeric (io := sample_io) c) = true → x = fzero)
          ∧ (isnan (pd.to_numeric (io := sample_io) c) = false
             → x = pd.to_numeric (io := sample_io) c).
Proof.
  apply (process_files_amount (io := sample_io) [("amounts.csv", Ok odd_amounts)]).
  - vm_compute. reflexivity.
  - vm_compute. do 1 right. left.
Defined.

(** ** Well-formed frames through the pipeline *)

Lemma labelled_subseteq key (cols : list (string * Series)) c :
  c ∈ labelled key cols → c ∈ cols.
Proof. unfold labelled. by intros [_ ?]%list_elem_of_filter. Qed.

#[local] Opaque REQUIRED_COLUMNS.

Lemma clean_dataframe_well_formed df out :
  well_formed df → clean_dataframe df = Ok out → well_formed out.
Proof.
  rewrite clean_dataframe_spec. intros Hwf [= <-]. unfold well_formed. cbn [series index_len].
  apply Forall_bind, list.Forall_forall. intros req_col _.
  unfold matching_columns. apply Forall_fmap, list.Forall_forall.
  intros c [_ Hc]%list_elem_of_filter. simpl.
  by apply (proj1 (list.Forall_forall _ _) Hwf).
Qed.

#[local] Transparent REQUIRED_COLUMNS.

Lemma stack_lengths (a b : list (string * Series)) (n m : nat) :
  Forall (λ c, length c.2 = n) a →
  Forall (λ c, length c.2 = m) b →
  Forall (λ c, length c.2 = (n + m)%nat) (pd.stack a b).
Proof.
  intros Ha. revert b. induction Ha as [| x a Hx _ IH]; intros b Hb; [constructor |].
  destruct Hb as [| y b Hy Hb]; [constructor |].
  constructor; [simpl; rewrite length_app; congruence | by apply IH].
Qed.

Lemma foldl_stack_lengths (rest : list DataFrame) (acc : list (string * Series)) (n : nat) :
  Forall (λ c, length c.2 = n) acc →
  Forall well_formed rest →
  Forall (λ c, length c.2 = (n + sum_list (index_len <$> rest))%nat)
         (foldl pd.stack acc (series <$> rest)).
Proof.
  intros Hacc Hrest. revert acc n Hacc.
  induction Hrest as [| d rest Hd _ IH]; intros acc n Hacc.
  - simpl. by rewrite Nat.add_0_r.
  - rewrite !fmap_cons. cbn [foldl sum_list_with].
    replace (n + (id (index_len d) + sum_list (index_len <$> rest)))%nat
      with (n + index_len d + sum_list (index_len <$> rest))%nat by (unfold id; lia).
    apply IH. by apply stack_lengths.
Qed.

Lemma length_column_or_nan label df :
  well_formed df → length (pd.column_or_nan label df) = index_len df.
Proof.
  intros Hwf. unfold pd.column_or_nan.
  destruct (labelled label (series df)) as [| c cols] eqn:Hc; [apply length_replicate |].
  apply (proj1 (list.Forall_forall _ _) Hwf). apply (labelled_subseteq label).
  rewrite Hc. left.
Qed.

Lemma length_bind_column_or_nan label (objs : list DataFrame) :
  Forall well_formed objs →
  length (objs ≫= pd.column_or_nan label) = sum_list (index_len <$> objs).
Proof.
  induction 1 as [| d objs Hd _ IH]; [done |].
  rewrite bind_cons, length_app, IH, length_column_or_nan by done. by rewrite fmap_cons.
Qed.

Lemma concat_well_formed objs out :
  Forall well_formed objs → pd.concat objs = Ok out → well_formed out.
Proof.
  unfold pd.concat. destruct objs as [| first rest]; [discriminate |].
  intros Hall. destruct (forallb _ rest).
  - intros [= <-]. unfold well_formed. cbn [series index_len].
    apply list.Forall_cons in Hall as [Hfirst Hrest].
    by apply foldl_stack_lengths.
  - destruct (forallb _ (first :: rest)); [| discriminate].
    revert Hall. generalize (first :: rest). intros objs Hall [= <-].
    unfold well_formed. cbn [series index_len].
    apply Forall_fmap, list.Forall_forall. intros label _. cbn [snd compose].
    by apply length_bind_column_or_nan.
Qed.

Lemma setitem_well_formed df key values :
  well_formed df → length values = index_len df → well_formed (setitem df key values).
Proof.
  intros Hwf Hlen. unfold well_formed, setitem. cbn [series index_len].
  apply Forall_fmap. eapply list.Forall_impl; [exact Hwf |].
  intros c Hc. simpl. by case_bool_decide.
Qed.

Section Files_well_formed.
Context {io : External}.
Hypothesis read_csv_well_formed : ∀ file df, read_csv file = Ok df → well_formed df.
Hypothesis read_excel_well_formed : ∀ file df, read_excel file = Ok df → well_formed df.

Lemma read_files_well_formed files : Forall well_formed (read_files files).1.
Proof.
  induction files as [| file files IH]; [constructor |].
  cbn [read_files]. destruct (read_files files) as [all_data errors].
  destruct (_ ≫= clean_dataframe) as [df | e] eqn:Hattempt; [| done].
  apply bind_Ok in Hattempt as (raw & Hraw & Hclean).
  constructor; [| done]. apply (clean_dataframe_well_formed raw); [| done].
  destruct (endswith _ _); eauto.
Qed.

(** The table [process_files] returns has one entry per row in every
    column, when the frames pandas reads have. *)
Lemma process_files_well_formed files df :
  process_files files = Ok (Some df) → well_formed df.
Proof.
  intros (combined & normalized & Hconcat & Hstate & Hamount)%process_files_Some.
  assert (Hcombined : well_formed combined)
    by (eapply concat_well_formed; [apply read_files_well_formed | done]).
  assert (Hcol : ∀ d key c, well_formed d → labelled key (series d) = [c] →
            length c.2 = index_len d).
  { intros d key c Hwf Hc. apply (proj1 (list.Forall_forall _ _) Hwf).
    apply (labelled_subseteq key). rewrite Hc. left. }
  assert (Hnormalized : well_formed normalized).
  { clear Hamount. destruct (bool_decide ("State" ∈ columns combined)); [| by subst].
    destruct Hstate as (c & states & Hc & Hstates & ->).
    apply setitem_well_formed; [done |].
    by rewrite length_fmap, (for_each_length _ _ _ Hstates), (Hcol combined "State"). }
  destruct (bool_decide ("Amount" ∈ columns normalized)); [| by subst].
  destruct Hamount as (c & Hc & ->).
  apply setitem_well_formed; [done |].
  by rewrite length_fmap, (Hcol normalized "Amount").
Qed.

End Files_well_formed.

(** ** Masks, counts and sums *)

Local Open Scope nat_scope.

Lemma length_select_le {A} (mask : list bool) (l : list A) :
  length (select mask l) ≤ length (filter (λ b, b = true) mask).
Proof.
  revert l. induction mask as [| b mask IH]; intros [| x l]; simpl; try lia.
  rewrite filter_cons. specialize (IH l). destruct b; simpl; lia.
Qed.

Lemma length_select {A} (mask : list bool) (l : list A) :
  length mask = length l →
  length (select mask l) = length (filter (λ b, b = true) mask).
Proof.
  revert l. induction mask as [| b mask IH]; intros [| x l]; simpl; try done.
  intros [= Hlen]. rewrite filter_cons. specialize (IH l Hlen).
  destruct b; simpl; lia.
Qed.

Lemma Forall_select {A} (P : A → Prop) (mask : list bool) (l : list A) :
  Forall P l → Forall P (select mask l).
Proof.
  intros Hl. revert mask. induction Hl as [| x l Hx Hl IH]; intros [| [] mask]; simpl;
    try constructor; auto.
Qed.

Lemma length_filter_true_fmap {A} (f : A → bool) (l : list A) :
  length (filter (λ b, b = true) (f <$> l)) = length (filter (λ x, f x = true) l).
Proof.
  induction l as [| x l IH]; [done |].
  rewrite fmap_cons, !filter_cons. destruct (f x); simpl; lia.
Qed.

Lemma labelled_getitem_mask df mask key :
  labelled key (series (getitem_mask df mask))
  = (λ c, (c.1, select mask c.2)) <$> labelled key (series df).
Proof.
  unfold labelled, getitem_mask. cbn [series].
  induction (series df) as [| c cols IH]; [done |].
  rewrite fmap_cons, !filter_cons, IH. simpl. by destruct (decide (c.1 = key)).
Qed.

(** A column of the masked frame is the masked column of the frame. *)
Lemma getitem_getitem_mask df mask key s :
  getitem (getitem_mask df mask) key = Ok s →
  ∃ col, getitem df key = Ok col ∧ s = select mask col.
Proof.
  unfold getitem. rewrite labelled_getitem_mask.
  destruct (labelled key (series df)) as [| c [| ? ?]]; try discriminate.
  intros [= <-]. by exists c.2.
Qed.

Lemma getitem_elem_of df key col :
  getitem df key = Ok col → (key, col) ∈ series df.
Proof.
  unfold getitem. destruct (labelled key (series df)) as [| c [| ? ?]] eqn:Hc; try discriminate.
  intros [= <-]. assert (Hin : c ∈ labelled key (series df)) by (rewrite Hc; left).
  apply list_elem_of_filter in Hin as [<- Hin]. by destruct c.
Qed.

Lemma getitem_length df key col :
  well_formed df → getitem df key = Ok col → length col = index_len df.
Proof.
  intros Hwf Hcol%getitem_elem_of.
  by apply (proj1 (list.Forall_forall _ _) Hwf _ Hcol).
Qed.

Lemma getitem_state_text df states :
  state_normalized df → getitem df "State" = Ok states →
  Forall (λ x, is_text x = true) states.
Proof.
  unfold state_normalized, getitem. intros Hnorm.
  destruct (labelled "State" (series df)) as [| c [| ? ?]]; try discriminate.
  intros [= <-]. by apply list.Forall_cons in Hnorm as [? _].
Qed.

Lemma py_eq_text c s : py_eq c (CStr s) = true ↔ c = CStr s.
Proof.
  destruct c as [| t | x]; simpl; [done | | done].
  rewrite bool_decide_eq_true. split; congruence.
Qed.

(** ** [value_counts] and the grouped sum *)

Lemma value_counts_lookup (s : Series) (k : cell) :
  pd.value_counts s !! k
  = if pd.isna k then None
    else match occurrences k s with O => None | n => Some n end.
Proof.
  unfold occurrences. induction s as [| c s IH]; [by destruct (pd.isna k) |].
  cbn [pd.value_counts foldr]. fold (pd.value_counts s). rewrite filter_cons.
  destruct (pd.isna c) eqn:Hc.
  - rewrite IH. destruct (decide (c = k)) as [-> |]; [by rewrite Hc | done].
  - destruct (decide (c = k)) as [-> | Hne].
    + rewrite lookup_insert_eq, IH, Hc. simpl.
      by destruct (length (filter _ s)).
    + by rewrite lookup_insert_ne.
Qed.

(** [sum(d.values())] after one more occurrence of [k] was counted. *)
Lemma values_sum_count (m : gmap cell nat) (k : cell) :
  values_sum (<[k := S (default 0%nat (m !! k))]> m) = S (values_sum m).
Proof.
  unfold values_sum. destruct (m !! k) as [n |] eqn:Hk; simpl.
  - rewrite <- (insert_delete_id m k n Hk) at 2.
    rewrite <- insert_delete_eq.
    rewrite !map_to_list_insert by apply lookup_delete_eq. done.
  - by rewrite map_to_list_insert.
Qed.

Lemma values_sum_value_counts (s : Series) :
  values_sum (pd.value_counts s) = length (filter (λ c, pd.isna c = false) s).
Proof.
  induction s as [| c s IH]; [done |].
  cbn [pd.value_counts foldr]. fold (pd.value_counts s). rewrite filter_cons.
  destruct (pd.isna c); simpl; [done |]. by rewrite values_sum_count, IH.
Qed.

Lemma groupby_sum_lookup (states : Series) (xs : list float) (k : cell) :
  pd.groupby_sum states xs !! k
  = if pd.isna k then None
    else match filter (λ r, r.1 = k) (zip states xs) with
         | [] => None
         | rows => Some (nansum rows.*2)
         end.
Proof.
  unfold pd.groupby_sum. induction (zip states xs) as [| [c x] rows IH];
    [by destruct (pd.isna k) |].
  cbn [foldr]. rewrite filter_cons. cbn [fst snd].
  destruct (pd.isna c) eqn:Hc.
  - rewrite IH. destruct (decide (c = k)) as [-> |]; [by rewrite Hc | done].
  - destruct (decide (c = k)) as [-> | Hne].
    + rewrite lookup_insert_eq, IH, Hc. f_equal.
      destruct (filter _ rows); rewrite fmap_cons; unfold nansum; simpl;
        by destruct (isnan x).
    + by rewrite lookup_insert_ne.
Qed.

Lemma filter_zip_fst (states : Series) (xs : list float) (k : cell) :
  length states = length xs →
  (filter (λ r, r.1 = k) (zip states xs)).*1 = filter (λ c, c = k) states.
Proof.
  revert xs. induction states as [| c states IH]; intros [| x xs]; try done.
  intros [= Hlen]. cbn [zip zip_with]. rewrite !filter_cons. cbn [fst].
  destruct (decide (c = k)); [rewrite fmap_cons; cbn [fst]; f_equal |]; by apply IH.
Qed.

(** ** Rounding and the rate *)

Lemma round_half_even_bounds (y : Q) (lo hi : Z) :
  (inject_Z lo <= y <= inject_Z hi)%Q → (lo ≤ round_half_even y ≤ hi)%Z.
Proof.
  intros [Hlo Hhi]. unfold round_half_even.
  pose proof (Qfloor_le y) as Hfloor.
  assert (Hn_lo : (lo ≤ Qfloor y)%Z)
    by (rewrite <- (Qfloor_Z lo); by apply Qfloor_resp_le).
  assert (Hn_hi : (Qfloor y ≤ hi)%Z)
    by (rewrite <- (Qfloor_Z hi); by apply Qfloor_resp_le).
  assert (Hup : (1 # 2 <= y - inject_Z (Qfloor y))%Q → (Qfloor y + 1 ≤ hi)%Z).
  { intros Hhalf. destruct (Z.eq_dec (Qfloor y) hi) as [Heq | Hne]; [| lia].
    rewrite Heq in Hhalf. lra. }
  destruct (y - inject_Z (Qfloor y) ?= 1 # 2)%Q eqn:Hcmp.
  - apply Qeq_alt in Hcmp. destruct (Z.even (Qfloor y)); [lia |].
    split; [lia |]. apply Hup. lra.
  - lia.
  - apply Qgt_alt in Hcmp. split; [lia |]. apply Hup. lra.
Qed.

Lemma round_half_even_zero (y : Q) :
  (0 <= y)%Q → round_half_even y = 0%Z ↔ (y <= 1 # 2)%Q.
Proof.
  intros Hy. unfold round_half_even.
  pose proof (Qfloor_le y) as Hfloor.
  assert (Hn : (0 ≤ Qfloor y)%Z)
    by (rewrite <- (Qfloor_Z 0); by apply Qfloor_resp_le).
  destruct (Z.eq_dec (Qfloor y) 0%Z) as [Hzero | Hne].
  - rewrite Hzero. change (inject_Z 0) with 0%Q.
    destruct (y - 0 ?= 1 # 2)%Q eqn:Hcmp.
    + apply Qeq_alt in Hcmp. simpl. split; [intros _; lra | done].
    + apply Qlt_alt in Hcmp. split; [intros _; lra | done].
    + apply Qgt_alt in Hcmp. split; [discriminate | lra].
  - assert (Hone : (1 <= inject_Z (Qfloor y))%Q).
    { change 1%Q with (inject_Z 1). rewrite <- Zle_Qle. lia. }
    split; [| lra].
    destruct (y - inject_Z (Qfloor y) ?= 1 # 2)%Q; [destruct (Z.even (Qfloor y)) | |]; lia.
Qed.

Lemma round_half_even_mono (x y : Q) :
  (x <= y)%Q → (round_half_even x ≤ round_half_even y)%Z.
Proof.
  intros Hxy. pose proof (Qfloor_resp_le _ _ Hxy) as Hfloor.
  unfold round_half_even.
  destruct (Z.eq_dec (Qfloor x) (Qfloor y)) as [Heq | Hne].
  - rewrite Heq.
    destruct (x - inject_Z (Qfloor y) ?= 1 # 2)%Q eqn:Hx;
      destruct (y - inject_Z (Qfloor y) ?= 1 # 2)%Q eqn:Hy;
      try (destruct (Z.even (Qfloor y))); try lia;
      repeat match goal with
             | H : (_ ?= _)%Q = Eq |- _ => apply Qeq_alt in H
             | H : (_ ?= _)%Q = Lt |- _ => apply Qlt_alt in H
             | H : (_ ?= _)%Q = Gt |- _ => apply Qgt_alt in H
             end; lra.
  - destruct (x - inject_Z (Qfloor x) ?= 1 # 2)%Q;
      destruct (y - inject_Z (Qfloor y) ?= 1 # 2)%Q;
      repeat (destruct (Z.even _)); lia.
Qed.

Lemma round_half_even_nonneg (y : Q) : (0 <= y)%Q → (0 ≤ round_half_even y)%Z.
Proof.
  intros Hy. unfold round_half_even.
  assert (Hn : (0 ≤ Qfloor y)%Z)
    by (rewrite <- (Qfloor_Z 0); by apply Qfloor_resp_le).
  destruct (y - inject_Z (Qfloor y) ?= 1 # 2)%Q; [destruct (Z.even _) | |]; lia.
Qed.

(** *** Rounding to a double *)

Lemma pow2_pos (e : Z) : (0 < 2 ^ e)%Q.
Proof. by apply Qpower_0_lt. Qed.

Lemma pow2_le (e1 e2 : Z) : (e1 ≤ e2)%Z → (2 ^ e1 <= 2 ^ e2)%Q.
Proof. intros He. by apply Qpower_le_compat_l. Qed.

Lemma pow2_plus (e1 e2 : Z) : (2 ^ (e1 + e2) == 2 ^ e1 * 2 ^ e2)%Q.
Proof. by apply Qpower_plus. Qed.

Lemma pow2_inject (n : Z) : (0 ≤ n)%Z → (2 ^ n == inject_Z (2 ^ n))%Q.
Proof. intros Hn. by rewrite Zpower_Qpower. Qed.

(** [ilog2 x] is the exponent of the power of two at or just below [x]. *)
Lemma ilog2_spec (x : Q) :
  (0 < x)%Q → (2 ^ ilog2 x <= x)%Q ∧ (x < 2 ^ (ilog2 x + 1))%Q.
Proof.
  intros Hx. unfold ilog2. destruct x as [a b]. cbn [Qnum Qden].
  assert (Ha : (0 < a)%Z) by (unfold Qlt in Hx; simpl in Hx; lia).
  set (la := Z.log2 a). set (lb := Z.log2 (Z.pos b)). set (k := (la - lb)%Z).
  pose proof (Z.log2_spec a Ha) as [Ha_lo Ha_hi]. fold la in Ha_lo, Ha_hi.
  pose proof (Z.log2_spec (Z.pos b) eq_refl) as [Hb_lo Hb_hi]. fold lb in Hb_lo, Hb_hi.
  pose proof (Z.log2_nonneg a) as Hla. fold la in Hla.
  pose proof (Z.log2_nonneg (Z.pos b)) as Hlb. fold lb in Hlb.
  assert (Hab : ((a # b) * inject_Z (Z.pos b) == inject_Z a)%Q).
  { unfold Qeq, Qmult, inject_Z. simpl. lia. }
  assert (HA_lo : (inject_Z (2 ^ la) <= inject_Z a)%Q) by by rewrite <- Zle_Qle.
  assert (HA_hi : (inject_Z a < inject_Z (2 ^ Z.succ la))%Q) by by rewrite <- Zlt_Qlt.
  assert (HB_lo : (inject_Z (2 ^ lb) <= inject_Z (Z.pos b))%Q) by by rewrite <- Zle_Qle.
  assert (HB_hi : (inject_Z (Z.pos b) < inject_Z (2 ^ Z.succ lb))%Q) by by rewrite <- Zlt_Qlt.
  rewrite <- !pow2_inject in * by lia.
  assert (Hlow : (2 ^ (k - 1) <= a # b)%Q).
  { assert (Hk : (2 ^ (k - 1) * 2 ^ Z.succ lb == 2 ^ la)%Q)
      by (rewrite <- pow2_plus; f_equiv; unfold k; lia).
    pose proof (pow2_pos (Z.succ lb)). pose proof (pow2_pos (k - 1)).
    apply (Qmult_le_r _ _ (2 ^ Z.succ lb)); [done |]. rewrite Hk.
    apply Qle_trans with (inject_Z a); [done |]. rewrite <- Hab.
    apply Qmult_le_l; [done | by apply Qlt_le_weak]. }
  assert (Hhigh : (a # b < 2 ^ (k + 1))%Q).
  { assert (Hk : (2 ^ (k + 1) * 2 ^ lb == 2 ^ Z.succ la)%Q)
      by (rewrite <- pow2_plus; f_equiv; unfold k; lia).
    pose proof (pow2_pos lb). pose proof (pow2_pos (k + 1)).
    apply (Qmult_lt_r _ _ (2 ^ lb)); [done |]. rewrite Hk.
    apply Qle_lt_trans with (inject_Z a); [| done]. rewrite <- Hab.
    apply Qmult_le_l; done. }
  destruct (Qle_bool (2 ^ k) (a # b)) eqn:Hle.
  - apply Qle_bool_iff in Hle. done.
  - assert (Hlt : (a # b < 2 ^ k)%Q).
    { apply Qnot_le_lt. intros Hge. apply Qle_bool_iff in Hge. congruence. }
    replace (k - 1 + 1)%Z with k by lia. done.
Qed.

Lemma ilog2_mono (x y : Q) : (0 < x)%Q → (x <= y)%Q → (ilog2 x ≤ ilog2 y)%Z.
Proof.
  intros Hx Hxy.
  destruct (ilog2_spec x Hx) as [Hx_lo _].
  destruct (ilog2_spec y) as [_ Hy_hi]; [lra |].
  destruct (Z_lt_le_dec (ilog2 y) (ilog2 x)) as [Hlt | Hle]; [| done].
  pose proof (pow2_le (ilog2 y + 1) (ilog2 x) ltac:(lia)). lra.
Qed.

(** Two positive numbers in the same binade are rounded on the same grid;
    across binades the power of two between them separates what they
    round to. *)
Lemma binary64_pos_mono (x y : Q) :
  (0 < x)%Q → (x <= y)%Q → (binary64_pos x <= binary64_pos y)%Q.
Proof.
  intros Hx Hxy. assert (Hy : (0 < y)%Q) by lra.
  pose proof (ilog2_mono x y Hx Hxy) as Hlog.
  unfold binary64_pos.
  set (ex := Z.max (ilog2 x - 52) (-1074)). set (ey := Z.max (ilog2 y - 52) (-1074)).
  assert (Hexy : (ex ≤ ey)%Z) by lia.
  pose proof (pow2_pos ex) as Hpx. pose proof (pow2_pos ey) as Hpy.
  destruct (Z.eq_dec ex ey) as [Heq | Hne].
  - rewrite <- Heq. apply Qmult_le_compat_r; [| lra].
    rewrite <- Zle_Qle. apply round_half_even_mono.
    apply Qmult_le_compat_r; [done |]. apply Qlt_le_weak, Qinv_lt_0_compat. done.
  - assert (Hey : ey = (ilog2 y - 52)%Z) by lia.
    destruct (ilog2_spec x Hx) as [_ Hx_hi]. destruct (ilog2_spec y Hy) as [Hy_lo _].
    assert (Hmx : (round_half_even (x / 2 ^ ex) ≤ 2 ^ 53)%Z).
    { apply (round_half_even_bounds _ 0). split.
      - apply Qle_shift_div_l; [done | change (inject_Z 0) with 0%Q; lra].
      - apply Qle_shift_div_r; [done |]. rewrite <- (pow2_inject 53), <- pow2_plus by lia.
        pose proof (pow2_le (ilog2 x + 1) (53 + ex) ltac:(lia)). lra. }
    assert (Hmy : (2 ^ 52 ≤ round_half_even (y / 2 ^ ey))%Z).
    { apply (round_half_even_bounds _ _ (Qceiling (y / 2 ^ ey))). split.
      - apply Qle_shift_div_l; [done |]. rewrite <- (pow2_inject 52), <- pow2_plus by lia.
        replace (52 + ey)%Z with (ilog2 y) by lia. done.
      - apply Qle_ceiling. }
    apply Qle_trans with (2 ^ (53 + ex))%Q.
    + rewrite pow2_plus, (pow2_inject 53) by lia. apply Qmult_le_compat_r; [| lra].
      rewrite Zle_Qle in Hmx. exact Hmx.
    + apply Qle_trans with (2 ^ (52 + ey))%Q; [apply pow2_le; lia |].
      rewrite pow2_plus, (pow2_inject 52) by lia. apply Qmult_le_compat_r; [| lra].
      rewrite Zle_Qle in Hmy. exact Hmy.
Qed.

Lemma binary64_pos_nonneg (x : Q) : (0 < x)%Q → (0 <= binary64_pos x)%Q.
Proof.
  intros Hx. unfold binary64_pos.
  pose proof (pow2_pos (Z.max (ilog2 x - 52) (-1074))) as Hp.
  apply Qmult_le_0_compat; [| lra]. change 0%Q with (inject_Z 0). rewrite <- Zle_Qle.
  apply round_half_even_nonneg. apply Qle_shift_div_l; [done | lra].
Qed.

Lemma binary64_zero (x : Q) : (x == 0)%Q → binary64 x = 0%Q.
Proof. intros Hx. unfold binary64. apply Qeq_alt in Hx. by rewrite Hx. Qed.

(** Rounding to the nearest double keeps the order of what it rounds. *)
Lemma binary64_mono (x y : Q) :
  (0 <= x)%Q → (x <= y)%Q → (binary64 x <= binary64 y)%Q.
Proof.
  intros Hx Hxy. unfold binary64.
  destruct (x ?= 0)%Q eqn:Hx0; destruct (y ?= 0)%Q eqn:Hy0;
    repeat match goal with
           | H : (_ ?= _)%Q = Eq |- _ => apply Qeq_alt in H
           | H : (_ ?= _)%Q = Lt |- _ => apply Qlt_alt in H
           | H : (_ ?= _)%Q = Gt |- _ => apply Qgt_alt in H
           end; try lra.
  - apply binary64_pos_nonneg. lra.
  - apply binary64_pos_mono; lra.
Qed.

Lemma binary64_nonneg (x : Q) : (0 <= x)%Q → (0 <= binary64 x)%Q.
Proof. intros Hx. rewrite <- (binary64_zero 0) at 1 by done. by apply binary64_mono. Qed.

(** 1 and 100 are doubles. *)
Lemma binary64_one : (binary64 1 == 1)%Q.
Proof. vm_compute. reflexivity. Qed.

Lemma binary64_hundred : (binary64 100 == 100)%Q.
Proof. vm_compute. reflexivity. Qed.

Lemma binary64_bounds_100 (x : Q) : (0 <= x <= 100)%Q → (0 <= binary64 x <= 100)%Q.
Proof.
  intros [Hlo Hhi]. split; [by apply binary64_nonneg |].
  rewrite <- binary64_hundred. by apply binary64_mono.
Qed.

(** *** [round(x, 2)] and the rate *)

Lemma round2_bounds (x : Q) : (0 <= x <= 100)%Q → (0 <= round2 x <= 100)%Q.
Proof.
  intros [Hlo Hhi]. unfold round2.
  destruct (round_half_even_bounds (x * 100) 0 10000) as [Hr_lo Hr_hi].
  { change (inject_Z 0) with 0%Q. change (inject_Z 10000) with 10000%Q. lra. }
  rewrite Zle_Qle in Hr_lo, Hr_hi.
  change (inject_Z 0) with 0%Q in Hr_lo. change (inject_Z 10000) with 10000%Q in Hr_hi.
  apply binary64_bounds_100.
  split; [apply Qle_shift_div_l | apply Qle_shift_div_r]; lra.
Qed.

(** A float whose hundredfold rounds to 1 or more is not rounded to 0. *)
Lemma round2_pos (x : Q) :
  (1 ≤ round_half_even (x * 100))%Z → (0 < round2 x)%Q.
Proof.
  intros Hr. unfold round2. rewrite Zle_Qle in Hr. change (inject_Z 1) with 1%Q in Hr.
  apply Qlt_le_trans with (binary64 (1 # 100)); [apply Qlt_alt; vm_compute; reflexivity |].
  apply binary64_mono; [lra |]. apply Qle_shift_div_l; lra.
Qed.

Lemma of_int_le (a b : nat) : a ≤ b → (of_int a <= of_int b)%Q.
Proof. intros Hab. unfold of_int. rewrite <- Zle_Qle. lia. Qed.

Lemma of_int_pos (a : nat) : 0 < a → (0 < of_int a)%Q.
Proof.
  intros Ha. unfold of_int. change 0%Q with (inject_Z 0). rewrite <- Zlt_Qlt. lia.
Qed.

Lemma truediv_bounds (success total : nat) :
  success ≤ total → 0 < total →
  (0 <= truediv (of_int success) (of_int total) <= 1)%Q.
Proof.
  intros Hle Hpos. apply of_int_pos in Hpos. apply of_int_le in Hle.
  pose proof (of_int_le 0 success (Nat.le_0_l _)) as Hs. change (of_int 0) with 0%Q in Hs.
  assert (0 <= of_int success / of_int total)%Q by (apply Qle_shift_div_l; lra).
  assert (of_int success / of_int total <= 1)%Q by (apply Qle_shift_div_r; lra).
  unfold truediv. split; [by apply binary64_nonneg |].
  rewrite <- binary64_one. by apply binary64_mono.
Qed.

Lemma rate_of_bounds (success total : nat) :
  success ≤ total → (0 <= rate_of success total <= 100)%Q.
Proof.
  intros Hle. unfold rate_of. destruct (0 <? total) eqn:Hpos; [| lra].
  apply Nat.ltb_lt in Hpos. destruct (truediv_bounds success total Hle Hpos).
  unfold float_mul. apply binary64_bounds_100. lra.
Qed.

Lemma rate_of_no_success (total : nat) : rate_of 0 total = 0%Q.
Proof.
  unfold rate_of. destruct (0 <? total); [| done].
  unfold float_mul, truediv.
  rewrite (binary64_zero (of_int 0 / of_int total)) by (unfold Qeq; simpl; lia).
  by apply binary64_zero.
Qed.

Lemma rate_of_no_rows (success : nat) : rate_of success 0 = 0%Q.
Proof. reflexivity. Qed.

(** A rate that is rounded to 0 comes from no success at all, or from
    fewer successes than one in 20000: at one in 20000 the double
    [success / total * 100] is already above 0.005. *)
Lemma rate_of_zero (success total : nat) :
  success ≤ total →
  (round2 (rate_of success total) == 0)%Q →
  success = 0 ∨ 200 * (100 * success) < total.
Proof.
  intros Hle Hzero.
  destruct (decide (success = 0)) as [-> | Hsuccess]; [by left |]. right.
  destruct (decide (200 * (100 * success) < total)) as [| Hmany]; [done |]. exfalso.
  assert (Hpos : 0 < total) by lia.
  assert (Hratio : (1 # 20000 <= of_int success / of_int total)%Q).
  { pose proof (of_int_pos total Hpos) as Hb.
    apply Qle_shift_div_l; [done |].
    assert (Hz : (of_int total <= 20000 * of_int success)%Q).
    { unfold of_int. change 20000%Q with (inject_Z 20000).
      rewrite <- inject_Z_mult, <- Zle_Qle. lia. }
    lra. }
  set (d0 := binary64 (1 # 20000)).
  assert (Hd : (d0 <= truediv (of_int success) (of_int total))%Q)
    by (apply binary64_mono; [done | exact Hratio]).
  assert (Hd0 : (0 <= d0 * 100)%Q) by (apply Qle_bool_iff; vm_compute; reflexivity).
  set (x0 := binary64 (d0 * 100)).
  assert (Hx : (x0 <= rate_of success total)%Q).
  { unfold rate_of. rewrite (proj2 (Nat.ltb_lt 0 total) Hpos).
    apply binary64_mono; [done | lra]. }
  assert (Hx0 : (0 <= x0 * 100)%Q) by (apply Qle_bool_iff; vm_compute; reflexivity).
  assert (Hr : (1 ≤ round_half_even (rate_of success total * 100))%Z).
  { change 1%Z with (round_half_even (x0 * 100)).
    apply round_half_even_mono. lra. }
  pose proof (round2_pos _ Hr). lra.
Qed.

(** The doubles decide at the boundary: 23 of 160 is 14.375 as a
    fraction and 14.37 once rounded, 1 of 20000 is rounded to 0.01 and
    1 of 20001 to 0. *)
Example rate_23_of_160 : (round2 (rate_of 23 160) == binary64 (1437 # 100))%Q.
Proof. vm_compute. reflexivity. Qed.

Example rate_1_of_20000 : (round2 (rate_of 1 (200 * 100)) == binary64 (1 # 100))%Q.
Proof. vm_compute. reflexivity. Qed.

Example rate_1_of_20001 : (round2 (rate_of 1 (200 * 100 + 1)) == 0)%Q.
Proof. vm_compute. reflexivity. Qed.

(** ** [calculate_merchant_stats] *)

(** What a successful call has computed. *)
Lemma calculate_merchant_stats_Ok df merchant st :
  calculate_merchant_stats df merchant = Ok st →
  ∃ rows states amounts xs,
    merchant_rows df merchant = Ok rows
    ∧ getitem rows "State" = Ok states
    ∧ getitem rows "Amount" = Ok amounts
    ∧ for_each as_float amounts = Ok xs
    ∧ total_txns st = len rows
    ∧ success_txns st = occurrences (CStr "Remitted") states
    ∧ success_rate st = round2 (rate_of (success_txns st) (total_txns st))
    ∧ total_amount st = nansum xs
    ∧ state_counts st = pd.value_counts states
    ∧ state_amounts st = pd.groupby_sum states xs.
Proof.
  unfold calculate_merchant_stats, merchant_rows.
  intros (ids & -> & Hrest)%bind_Ok.
  set (rows := getitem_mask df _) in *.
  apply bind_Ok in Hrest as (states & Hstates & Hrest).
  apply bind_Ok in Hrest as (total & Htotal & Hrest).
  apply bind_Ok in Hrest as (success & _ & Hrest).
  apply bind_Ok in Hrest as (by_state & Hby_state & [= <-]).
  apply bind_Ok in Hby_state as (amounts & Hamounts & Hby_state).
  apply bind_Ok in Hby_state as (xs & Hxs & [= <-]).
  exists rows, states, amounts, xs. cbn [mbind outcome_bind].
  assert (Hsuccess : len (getitem_mask rows ((λ c, py_eq c (CStr "Remitted")) <$> states))
                     = occurrences (CStr "Remitted") states).
  { unfold len, getitem_mask, occurrences. cbn [index_len].
    rewrite length_filter_true_fmap. f_equal. apply list_filter_iff.
    intros c. apply py_eq_text. }
  split_and!; [done | done | done | done | done | exact Hsuccess | | | done | done].
  - cbn [success_rate success_txns total_txns]. unfold rate_of.
    unfold len, getitem_mask in Hsuccess |- *. cbn [index_len] in Hsuccess |- *.
    by rewrite Hsuccess.
  - cbn [total_amount]. rewrite Hamounts in Htotal. cbn [mbind outcome_bind] in Htotal.
    unfold Pandas.sum in Htotal. rewrite Hxs in Htotal. by injection Htotal as <-.
Qed.

(** The call returns on a frame that has one column under each of the
    three names it reads and no text among the amounts. *)
Lemma calculate_merchant_stats_returns df merchant ids states amounts :
  getitem df "Merchant ID" = Ok ids →
  getitem df "State" = Ok states →
  getitem df "Amount" = Ok amounts →
  Forall (λ c, is_text c = false) amounts →
  ∃ st, calculate_merchant_stats df merchant = Ok st.
Proof.
  intros Hids Hstates Hamounts Hnum.
  assert (Hmask : ∀ d mask key col, getitem d key = Ok col →
            getitem (getitem_mask d mask) key = Ok (select mask col)).
  { intros d mask key col. unfold getitem. rewrite labelled_getitem_mask.
    destruct (labelled key (series d)) as [| c [| ? ?]]; try discriminate.
    by intros [= <-]. }
  assert (Hsum : ∀ mask, ∃ xs, for_each as_float (select mask amounts) = Ok xs).
  { intros mask. apply for_each_total, Forall_select.
    eapply list.Forall_impl; [exact Hnum |]. intros [| s | x] Hc; try discriminate; by eexists. }
  unfold calculate_merchant_stats. rewrite Hids. cbn [mbind outcome_bind].
  set (mask := (λ c, py_eq c merchant) <$> ids).
  rewrite (Hmask _ mask _ _ Hstates). cbn [mbind outcome_bind].
  set (mask' := (λ c, py_eq c (CStr "Remitted")) <$> select mask states).
  rewrite (Hmask _ mask _ _ Hamounts). cbn [mbind outcome_bind].
  rewrite (Hmask _ mask' _ _ (Hmask _ mask _ _ Hamounts)). cbn [mbind outcome_bind].
  unfold Pandas.sum.
  destruct (Hsum mask) as [xs ->]. cbn [mbind outcome_bind].
  destruct (for_each as_float (select mask' (select mask amounts))) as [ys |] eqn:Hys.
  - cbn [mbind outcome_bind]. by eexists.
  - assert (Hnum' : Forall (λ c, is_text c = false) (select mask amounts))
      by by apply Forall_select.
    destruct (for_each_total as_float (select mask' (select mask amounts))) as [ys Hys'].
    { apply Forall_select. eapply list.Forall_impl; [exact Hnum' |].
      intros [| s | x] Hc; try discriminate; by eexists. }
    congruence.
Qed.

Lemma success_le_total df merchant st :
  calculate_merchant_stats df merchant = Ok st → success_txns st ≤ total_txns st.
Proof.
  intros (rows & states & amounts & xs & Hrows & Hstates & _ & _ & -> & -> & _)
    %calculate_merchant_stats_Ok.
  unfold merchant_rows in Hrows. apply bind_Ok in Hrows as (ids & Hids & [= <-]).
  apply getitem_getitem_mask in Hstates as (col & _ & ->).
  unfold occurrences, len, getitem_mask. cbn [index_len].
  etrans; [apply length_filter | apply length_select_le].
Qed.

(** C1, as the claim has it, fails in one direction: a merchant with one
    transaction, rejected, has rate 0 and a row count that is not 0. *)
Lemma success_rate_zero_with_rows :
  ∃ st, calculate_merchant_stats rejected_only (CStr "M1") = Ok st
    ∧ (success_rate st == 0)%Q
    ∧ total_txns st ≠ 0.
Proof.
  eexists. split; [vm_compute; reflexivity |]. split; [reflexivity | discriminate].
Qed.

(** C1, amended: the rate, the double that [round(success_txns /
    total_txns * 100, 2)] returns, lies in [0, 100]; it is 0 when the
    merchant has no rows, and also when none of the rows is [Remitted]; a
    rate of 0 means no more than that no row is [Remitted] or fewer than
    one row in 20000 is. *)
Theorem success_rate_range (df : DataFrame) (merchant : cell) (st : MerchantStats) :
  calculate_merchant_stats df merchant = Ok st →
  (0 <= success_rate st <= 100)%Q
  ∧ (total_txns st = 0 → (success_rate st == 0)%Q)
  ∧ (success_txns st = 0 → (success_rate st == 0)%Q)
  ∧ ((success_rate st == 0)%Q →
     success_txns st = 0 ∨ 200 * (100 * success_txns st) < total_txns st).
Proof.
  intros Hst. pose proof (success_le_total _ _ _ Hst) as Hle.
  apply calculate_merchant_stats_Ok in Hst
    as (rows & states & amounts & xs & _ & _ & _ & _ & _ & _ & -> & _).
  split; [| split; [| split]].
  - apply round2_bounds. by apply rate_of_bounds.
  - intros ->. by rewrite rate_of_no_rows.
  - intros ->. by rewrite rate_of_no_success.
  - intros Hzero. by apply rate_of_zero.
Qed.

Lemma success_rate_range_witness :
  (0 <= success_rate three_rows_M1 <= 100)%Q
  ∧ (total_txns three_rows_M1 = 0 → (success_rate three_rows_M1 == 0)%Q)
  ∧ (success_txns three_rows_M1 = 0 → (success_rate three_rows_M1 == 0)%Q)
  ∧ ((success_rate three_rows_M1 == 0)%Q
     → success_txns three_rows_M1 = 0
       ∨ 200 * (100 * success_txns three_rows_M1) < total_txns three_rows_M1).
Proof.
  apply (success_rate_range three_rows (CStr "M1") three_rows_M1).
  vm_compute. reflexivity.
Defined.

Lemma is_text_not_na c : is_text c = true → pd.isna c = false.
Proof. by destruct c. Qed.

Lemma filter_Forall_id {A} (P : A → Prop) `{∀ x, Decision (P x)} (l : list A) :
  Forall P l → filter P l = l.
Proof.
  induction 1 as [| x l Hx _ IH]; [done |]. by rewrite filter_cons, decide_True, IH.
Qed.

Lemma occurrences_pos (k : cell) (s : Series) : 0 < occurrences k s ↔ k ∈ s.
Proof.
  unfold occurrences. induction s as [| c s IH].
  - split; [simpl; lia | by intros ?%elem_of_nil].
  - rewrite filter_cons, elem_of_cons. destruct (decide (c = k)) as [-> | Hne].
    + split; [by left | simpl; lia].
    + rewrite IH. split; [by right | intros [|]; congruence].
Qed.

(** The rows of one merchant in a well-formed frame: every column has one
    entry per row. *)
Lemma merchant_rows_column df merchant rows key s :
  well_formed df →
  merchant_rows df merchant = Ok rows →
  getitem rows key = Ok s →
  ∃ col mask, getitem df key = Ok col ∧ s = select mask col ∧ length s = len rows.
Proof.
  intros Hwf (ids & Hids & [= <-])%bind_Ok (col & Hcol & ->)%getitem_getitem_mask.
  exists col, ((λ c, py_eq c merchant) <$> ids). split; [done |]. split; [done |].
  unfold len, getitem_mask. cbn [index_len]. apply length_select.
  by rewrite length_fmap, (getitem_length _ _ _ Hwf Hids), (getitem_length _ _ _ Hwf Hcol).
Qed.

(** C2: in a table whose states are normalized, the counts of
    [state_counts] add up to [total_txns], for every merchant; and the
    counts taken over the [State] column of the whole table add up to its
    number of rows. *)
Theorem state_counts_sum (df : DataFrame) (merchant : cell) (st : MerchantStats) :
  well_formed df →
  state_normalized df →
  calculate_merchant_stats df merchant = Ok st →
  values_sum (state_counts st) = total_txns st
  ∧ ∀ states, getitem df "State" = Ok states →
      values_sum (pd.value_counts states) = len df.
Proof.
  intros Hwf Hnorm Hst.
  assert (Hall : ∀ states, Forall (λ x, is_text x = true) states →
            values_sum (pd.value_counts states) = length states).
  { intros states Htext. rewrite values_sum_value_counts. f_equal.
    apply filter_Forall_id. eapply list.Forall_impl; [exact Htext |].
    intros c. apply is_text_not_na. }
  split.
  - apply calculate_merchant_stats_Ok in Hst
      as (rows & states & amounts & xs & Hrows & Hstates & _ & _ & -> & _ & _ & _ & -> & _).
    destruct (merchant_rows_column _ _ _ _ _ Hwf Hrows Hstates) as (col & mask & Hcol & -> & <-).
    apply Hall, Forall_select. by apply (getitem_state_text df).
  - intros states Hstates. rewrite Hall by by apply (getitem_state_text df).
    by apply (getitem_length df "State").
Qed.

Example three_rows_is_unified : well_formed three_rows ∧ state_normalized three_rows.
Proof. split; repeat constructor. Qed.

Lemma state_counts_sum_witness :
  values_sum (state_counts three_rows_M1) = total_txns three_rows_M1
  ∧ ∀ states, getitem three_rows "State" = Ok states →
      values_sum (pd.value_counts states) = len three_rows.
Proof.
  apply (state_counts_sum three_rows (CStr "M1") three_rows_M1).
  - repeat constructor.
  - repeat constructor.
  - vm_compute. reflexivity.
Defined.

(** The two dictionaries have the same keys whatever the states are: the
    values of the merchant's [State] cells that are not missing. *)
Lemma state_breakdown_lookup (states : Series) (xs : list float) (k : cell) :
  length states = length xs →
  (pd.value_counts states !! k
   = if bool_decide (k ∈ states) && negb (pd.isna k)
     then Some (occurrences k states) else None)
  ∧ (pd.groupby_sum states xs !! k
     = if bool_decide (k ∈ states) && negb (pd.isna k)
       then Some (nansum (amounts_in_state k states xs)) else None).
Proof.
  intros Hlen. rewrite value_counts_lookup, groupby_sum_lookup.
  unfold amounts_in_state.
  pose proof (filter_zip_fst states xs k Hlen) as Hfst.
  pose proof (occurrences_pos k states) as Hpos. unfold occurrences in *.
  destruct (pd.isna k); [by rewrite andb_false_r |]. rewrite andb_true_r.
  case_bool_decide as Hin.
  - apply Hpos in Hin. split.
    + destruct (length (filter _ states)); [lia | done].
    + destruct (filter _ (zip states xs)); [| done].
      rewrite <- Hfst in Hin. simpl in Hin. lia.
  - assert (Hzero : length (filter (λ c, c = k) states) = 0)
      by (destruct (length (filter _ states)); [done | destruct Hin; apply Hpos; lia]).
    split; [by rewrite Hzero |].
    rewrite <- Hfst, length_fmap in Hzero. by destruct (filter _ (zip states xs)).
Qed.

(** C10: for a table as [process_files] leaves it, [state_counts] and
    [state_amounts] have the same keys, the states of the merchant's rows
    and no other; the count of each is its number of rows, which is
    positive, and its amount is the sum over those rows. *)
Theorem state_breakdown_keys (df : DataFrame) (merchant : cell) (st : MerchantStats) :
  well_formed df →
  state_normalized df →
  calculate_merchant_stats df merchant = Ok st →
  ∃ rows states amounts xs,
    merchant_rows df merchant = Ok rows
    ∧ getitem rows "State" = Ok states
    ∧ getitem rows "Amount" = Ok amounts
    ∧ for_each as_float amounts = Ok xs
    ∧ dom (state_counts st) = dom (state_amounts st)
    ∧ ∀ k : cell,
        (k ∈ dom (state_counts st) ↔ k ∈ states)
        ∧ (k ∈ states →
           state_counts st !! k = Some (occurrences k states)
           ∧ 0 < occurrences k states
           ∧ state_amounts st !! k = Some (nansum (amounts_in_state k states xs))).
Proof.
  intros Hwf Hnorm Hst.
  apply calculate_merchant_stats_Ok in Hst
    as (rows & states & amounts & xs & Hrows & Hstates & Hamounts & Hxs
        & _ & _ & _ & _ & -> & ->).
  exists rows, states, amounts, xs. split_and!; try done.
  all: destruct (merchant_rows_column _ _ _ _ _ Hwf Hrows Hstates) as (col & mask & Hcol & Hsel & Hl1).
  all: destruct (merchant_rows_column _ _ _ _ _ Hwf Hrows Hamounts) as (? & ? & _ & _ & Hl2).
  all: assert (Hlen : length states = length xs)
         by (rewrite (for_each_length _ _ _ Hxs); congruence).
  all: assert (Htext : ∀ k, k ∈ states → pd.isna k = false)
         by (intros k Hk; apply is_text_not_na;
             revert k Hk; apply list.Forall_forall; subst states;
             apply Forall_select; by apply (getitem_state_text df)).
  - apply set_eq. intros k. rewrite !elem_of_dom.
    destruct (state_breakdown_lookup states xs k Hlen) as [-> ->].
    by destruct (bool_decide _ && _).
  - intros k. rewrite elem_of_dom.
    destruct (state_breakdown_lookup states xs k Hlen) as [Hcount Hsum].
    rewrite Hcount, Hsum. case_bool_decide as Hin.
    + rewrite (Htext k Hin). simpl. split; [done |]. intros _.
      split_and!; [done | by apply occurrences_pos | done].
    + simpl. split; [split; [by intros [? ?] | done] | done].
Qed.

Lemma state_breakdown_keys_witness :
  ∃ rows states amounts xs,
    merchant_rows three_rows (CStr "M1") = Ok rows
    ∧ getitem rows "State" = Ok states
    ∧ getitem rows "Amount" = Ok amounts
    ∧ for_each as_float amounts = Ok xs
    ∧ dom (state_counts three_rows_M1) = dom (state_amounts three_rows_M1)
    ∧ ∀ k : cell,
        (k ∈ dom (state_counts three_rows_M1) ↔ k ∈ states)
        ∧ (k ∈ states →
           state_counts three_rows_M1 !! k = Some (occurrences k states)
           ∧ 0 < occurrences k states
           ∧ state_amounts three_rows_M1 !! k
             = Some (nansum (amounts_in_state k states xs))).
Proof.
  apply (state_breakdown_keys three_rows (CStr "M1") three_rows_M1).
  - repeat constructor.
  - repeat constructor.
  - vm_compute. reflexivity.
Defined.

(** ** [get_merchant_date_range] *)

Lemma foldr_min_spec (d : Z) (ds : list Z) :
  foldr Z.min d ds ∈ d :: ds ∧ ∀ x, x ∈ d :: ds → (foldr Z.min d ds ≤ x)%Z.
Proof.
  induction ds as [| y ds [Hin Hle]]; simpl.
  - split; [left |]. intros x [-> | ?%elem_of_nil]%elem_of_cons; [lia | done].
  - split.
    + destruct (Z.min_spec y (foldr Z.min d ds)) as [[_ ->] | [_ ->]].
      * right. left.
      * apply elem_of_cons in Hin as [-> | Hin]; [left | by do 2 right].
    + intros x Hx. assert (Hcases : x = y ∨ x ∈ d :: ds).
      { apply elem_of_cons in Hx as [-> | [-> | Hx]%elem_of_cons];
          [right; left | by left | by do 2 right]. }
      destruct Hcases as [-> | Hx']; [lia |]. specialize (Hle x Hx'). lia.
Qed.

Lemma foldr_max_spec (d : Z) (ds : list Z) :
  foldr Z.max d ds ∈ d :: ds ∧ ∀ x, x ∈ d :: ds → (x ≤ foldr Z.max d ds)%Z.
Proof.
  induction ds as [| y ds [Hin Hle]]; simpl.
  - split; [left |]. intros x [-> | ?%elem_of_nil]%elem_of_cons; [lia | done].
  - split.
    + destruct (Z.max_spec y (foldr Z.max d ds)) as [[_ ->] | [_ ->]].
      * apply elem_of_cons in Hin as [-> | Hin]; [left | by do 2 right].
      * right. left.
    + intros x Hx. assert (Hcases : x = y ∨ x ∈ d :: ds).
      { apply elem_of_cons in Hx as [-> | [-> | Hx]%elem_of_cons];
          [right; left | by left | by do 2 right]. }
      destruct Hcases as [-> | Hx']; [lia |]. specialize (Hle x Hx'). lia.
Qed.

Lemma columns_getitem_mask df mask : columns (getitem_mask df mask) = columns df.
Proof.
  unfold columns, getitem_mask. cbn [series]. rewrite <- list_fmap_compose.
  by apply list_fmap_ext.
Qed.

Section Dates_properties.
Context {io : External}.

(** C9: with the merchant's rows at hand, [get_merchant_date_range]
    returns; it returns [(None, None)] when the merchant has no row, when
    there is no [Issue Timestamp] column, and when no timestamp of the
    merchant parses; otherwise it returns the least and the greatest of
    the timestamps that parse. *)
Theorem date_range_spec (df : DataFrame) (merchant : cell) (rows : DataFrame) :
  merchant_rows df merchant = Ok rows →
  ∃ range,
    Dashboard_New_PDF1.get_merchant_date_range df merchant = Ok range
    ∧ (len rows = 0 → range = (None, None))
    ∧ ("Issue Timestamp" ∉ columns df → range = (None, None))
    ∧ (parseable_timestamps rows = [] → range = (None, None))
    ∧ (len rows ≠ 0 → parseable_timestamps rows ≠ [] →
       ∃ lo hi, range = (Some lo, Some hi)
         ∧ lo ∈ parseable_timestamps rows
         ∧ hi ∈ parseable_timestamps rows
         ∧ ∀ d, d ∈ parseable_timestamps rows → (lo ≤ d ≤ hi)%Z).
Proof.
  intros (ids & Hids & [= <-])%bind_Ok.
  unfold Dashboard_New_PDF1.get_merchant_date_range. rewrite Hids. cbn [mbind outcome_bind].
  set (rows := getitem_mask df _).
  case_bool_decide as Hlen.
  { exists (None, None). split_and!; try done. }
  destruct (bool_decide ("Issue Timestamp" ∈ columns rows)) eqn:Hcol; cbn [negb].
  2:{ apply bool_decide_eq_false in Hcol.
      assert (Hnone : parseable_timestamps rows = []).
      { unfold parseable_timestamps, getitem.
        by rewrite (proj2 (labelled_nil_iff _ _) Hcol). }
      exists (None, None). split_and!; try done; intros _ Hsome; by destruct Hsome. }
  apply bool_decide_eq_true in Hcol. unfold rows in Hcol at 1.
  rewrite columns_getitem_mask in Hcol.
  unfold parseable_timestamps.
  destruct (getitem rows "Issue Timestamp") as [column | e]; cbn [mbind outcome_bind].
  2:{ exists (None, None). split_and!; try done. }
  destruct (to_datetime column) as [parsed | e]; cbn [mbind outcome_bind].
  2:{ exists (None, None). split_and!; try done. }
  destruct (omap id parsed) as [| d ds] eqn:Hvalid.
  { exists (None, None). split_and!; try done. }
  exists (Some (foldr Z.min d ds), Some (foldr Z.max d ds)).
  destruct (foldr_min_spec d ds) as [Hmin_in Hmin].
  destruct (foldr_max_spec d ds) as [Hmax_in Hmax].
  split_and!; try done.
  intros _ _. eexists _, _. split_and!; try done.
  intros x Hx. split; [by apply Hmin | by apply Hmax].
Qed.

End Dates_properties.

Lemma date_range_spec_witness :
  ∃ range,
    Dashboard_New_PDF1.get_merchant_date_range (io := sample_io) three_rows (CStr "M1")
    = Ok range
    ∧ range = (Some 20%Z, Some 20%Z).
Proof.
  destruct (date_range_spec (io := sample_io) three_rows (CStr "M1")
              (getitem_mask three_rows [true; true; false]))
    as (range & Hrange & _ & _ & _ & Hsome); [reflexivity |].
  exists range. split; [exact Hrange |].
  destruct Hsome as (lo & hi & -> & Hlo & Hhi & _); [discriminate | discriminate |].
  vm_compute in Hlo, Hhi.
  apply elem_of_cons in Hlo as [-> | ?%elem_of_nil]; [| done].
  apply elem_of_cons in Hhi as [-> | ?%elem_of_nil]; [| done].
  reflexivity.
Defined.

Example date_range_two_days :
  Dashboard_New_PDF1.get_merchant_date_range (io := sample_io)
    (setitem three_rows "Merchant ID" [CStr "M1"; CStr "M1"; CStr "M1"]) (CStr "M1")
  = Ok (Some 10%Z, Some 20%Z).
Proof. reflexivity. Qed.

Example date_range_unknown_merchant :
  Dashboard_New_PDF1.get_merchant_date_range (io := sample_io) three_rows (CStr "M9")
  = Ok (None, None).
Proof. reflexivity. Qed.

(** ** The two programs *)

(** C8: the four pipeline functions of [Dashboard_New_PDF1.py] return, on
    every input, what the functions of the same names of [Dashboard_New.py]
    return. *)
Theorem report_matches_dashboard (io : External) :
  (∀ state,
     Dashboard_New_PDF1.normalize_state state = Dashboard_New.normalize_state state)
  ∧ (∀ df,
     Dashboard_New_PDF1.clean_dataframe df = Dashboard_New.clean_dataframe df)
  ∧ (∀ uploaded_files,
     Dashboard_New_PDF1.process_files uploaded_files
     = Dashboard_New.process_files uploaded_files)
  ∧ (∀ df merchant,
     Dashboard_New_PDF1.calculate_merchant_stats df merchant
     = Dashboard_New.calculate_merchant_stats df merchant).
Proof. split_and!; reflexivity. Qed.

(** ** Scenarios *)

Example clean_dataframe_mixed_headers :
  columns <$> clean_dataframe
    {| index_len := 0;
       series := [("merchant id", []); ("AMOUNT", []); ("State ", []);
                  ("Issue Timestamp", []); ("Notes", [])] |}
  = Ok ["Merchant ID"; "Amount"; "Issue Timestamp"; "State"].
Proof. reflexivity. Qed.

Example process_files_two_files :
  process_files (io := sample_io)
    [("a.csv", Ok odd_amounts);
     ("b.xlsx", Raise ParserError);
     ("c.xlsx", Ok {| index_len := 1;
                      series := [("STATE", [CStr "onhold"]); ("merchant id", [CStr "M2"]);
                                 ("amount", [CStr "1,200 PKR"])] |})]
  = Ok (Some {| index_len := 4;
                series := [("Merchant ID", [CStr "M1"; CStr "M1"; CStr "M1"; CStr "M2"]);
                           ("Amount", [num 40; CNum FPInf; CNum fzero; CNum fzero]);
                           ("State", [CStr "Remitted"; CStr "On hold"; CStr "Unknown";
                                      CStr "On hold"])] |}).
Proof. vm_compute. reflexivity. Qed.

Example process_files_reports_errors :
  (read_files (io := sample_io)
     [("a.csv", Ok odd_amounts); ("b.xlsx", Raise ParserError)]).2 = ["b.xlsx"].
Proof. reflexivity. Qed.

Example calculate_merchant_stats_no_rows :
  ∃ st, calculate_merchant_stats three_rows (CStr "M9") = Ok st
    ∧ total_txns st = 0
    ∧ (success_rate st == 0)%Q
    ∧ state_counts st = ∅.
Proof.
  eexists. split; [vm_compute; reflexivity |].
  split; [reflexivity |]. split; [reflexivity |]. by vm_compute.
Qed.

Example calculate_merchant_stats_no_state_column :
  calculate_merchant_stats two_state_headers (CStr "M1") = Raise KeyError.
Proof. reflexivity. Qed.

(** * Further properties of the pipeline *)

(** ** [normalize_state], once more *)

Lemma isspace_lower_char c : isspace (lower_char c) = isspace c.
Proof. destruct c as [[] [] [] [] [] [] [] []]; reflexivity. Qed.

Lemma lower_char_upper_char c : lower_char (upper_char c) = lower_char c.
Proof. destruct c as [[] [] [] [] [] [] [] []]; reflexivity. Qed.

Lemma lower_char_idemp c : lower_char (lower_char c) = lower_char c.
Proof. destruct c as [[] [] [] [] [] [] [] []]; reflexivity. Qed.

Lemma upper_char_idemp c : upper_char (upper_char c) = upper_char c.
Proof. destruct c as [[] [] [] [] [] [] [] []]; reflexivity. Qed.

Lemma lower_idemp s : lower (lower s) = lower s.
Proof. induction s as [| c s IH]; simpl; [done | by rewrite lower_char_idemp, IH]. Qed.

Lemma lower_capitalize s : lower (capitalize s) = lower s.
Proof. destruct s as [| c s]; simpl; [done | by rewrite lower_char_upper_char, lower_idemp]. Qed.

Lemma capitalize_idemp s : capitalize (capitalize s) = capitalize s.
Proof. destruct s as [| c s]; simpl; [done | by rewrite upper_char_idemp, lower_idemp]. Qed.

Lemma lstrip_lower s : lstrip (lower s) = lower (lstrip s).
Proof.
  induction s as [| c s IH]; simpl; [done |].
  rewrite isspace_lower_char. by destruct (isspace c).
Qed.

Lemma rstrip_lower s : rstrip (lower s) = lower (rstrip s).
Proof.
  induction s as [| c s IH]; simpl; [done |].
  rewrite IH, isspace_lower_char. destruct (rstrip s); simpl; [by destruct (isspace c) | done].
Qed.

Lemma strip_lower s : strip (lower s) = lower (strip s).
Proof. unfold strip. by rewrite lstrip_lower, rstrip_lower. Qed.

(** Every label of the table is its own label. *)
Lemma state_map_fixed key label :
  state_map !! key = Some label → normalize_state (CStr label) = Ok label.
Proof.
  unfold state_map. intros Hin%elem_of_list_to_map_2.
  repeat (apply elem_of_cons in Hin as [[= -> ->] | Hin]; [reflexivity |]).
  by apply elem_of_nil in Hin.
Qed.

(** What [normalize_state] returns, it returns unchanged when given it. *)
Lemma normalize_state_fixed c label :
  normalize_state c = Ok label → normalize_state (CStr label) = Ok label.
Proof.
  unfold normalize_state at 1. destruct (pd.isna c); [by intros [= <-] |].
  destruct c as [| s | x]; try discriminate. intros [= <-].
  destruct (state_map !! lower (strip s)) as [l |] eqn:Hkey; simpl.
  - by apply (state_map_fixed (lower (strip s))).
  - rewrite normalize_state_text.
    by rewrite <- strip_lower, lower_capitalize, strip_lower, Hkey, capitalize_idemp.
Qed.

(** X1: on ASCII text [normalize_state] is idempotent: the label it gives
    to a value that is missing or whose text is ASCII, be it "Unknown", a
    table hit or the fallback, is a label it gives back unchanged. *)
Theorem normalize_state_idempotent (c : cell) (label : string) :
  ascii_text c = true →
  normalize_state c = Ok label → normalize_state (CStr label) = Ok label.
Proof. intros _. apply normalize_state_fixed. Qed.

Lemma normalize_state_idempotent_witness :
  normalize_state (CStr "On hold") = Ok "On hold".
Proof.
  apply (normalize_state_idempotent (CStr " ONHOLD ") "On hold"); reflexivity.
Defined.

Lemma normalize_state_raises c e : normalize_state c = Raise e → e = AttributeError.
Proof.
  unfold normalize_state. destruct (pd.isna c); [discriminate |].
  destruct c; try discriminate; by intros [= <-].
Qed.

Lemma for_each_normalize_state_number (l : Series) (x : float) :
  CNum x ∈ l → isnan x = false → for_each normalize_state l = Raise AttributeError.
Proof.
  intros Hin Hx. induction l as [| c l IH]; [by apply elem_of_nil in Hin |].
  simpl. destruct (normalize_state c) as [label | e] eqn:Hc.
  - apply elem_of_cons in Hin as [<- | Hin].
    + by destruct x.
    + cbn [mbind outcome_bind]. by rewrite IH.
  - cbn [mbind outcome_bind]. by rewrite (normalize_state_raises _ _ Hc).
Qed.

Section Files_errors.
Context {io : External}.

(** X2: a number among the [State] values makes [process_files] raise
    [AttributeError]: [normalize_state] calls [capitalize] on it, outside
    any [try].  No table is returned, whatever the other files hold. *)
Theorem process_files_numeric_state (files : list UploadedFile)
    (combined : DataFrame) (c : string * Series) (x : float) :
  pd.concat (read_files files).1 = Ok combined →
  labelled "State" (series combined) = [c] →
  CNum x ∈ c.2 →
  isnan x = false →
  process_files files = Raise AttributeError.
Proof.
  intros Hconcat Hstate Hin Hx. unfold process_files.
  destruct (read_files files).1 as [| d all_data]; [discriminate |].
  rewrite Hconcat. cbn [mbind outcome_bind].
  rewrite bool_decide_true.
  2:{ destruct (decide ("State" ∈ columns combined)) as [| Hno]; [done |].
      apply labelled_nil_iff in Hno. congruence. }
  rewrite Hstate, (for_each_normalize_state_number _ _ Hin Hx). reflexivity.
Qed.

End Files_errors.

Lemma process_files_numeric_state_witness :
  process_files (io := sample_io)
    [("codes.csv", Ok {| index_len := 2;
                         series := [("State", [CStr "Remitted"; num 1])] |})]
  = Raise AttributeError.
Proof.
  eapply (process_files_numeric_state (io := sample_io) _ _ ("State", [CStr "Remitted"; num 1])).
  - vm_compute. reflexivity.
  - reflexivity.
  - right. left.
  - reflexivity.
Defined.

(** ** [clean_dataframe], once more *)

Lemma REQUIRED_COLUMNS_stripped : Forall (λ r, strip r = r) REQUIRED_COLUMNS.
Proof. repeat constructor. Qed.

#[local] Opaque REQUIRED_COLUMNS.

(** A header that is a required name spells no other required name. *)
Lemma required_spells r r' :
  r ∈ REQUIRED_COLUMNS → r' ∈ REQUIRED_COLUMNS →
  lower (strip r') = lower r ↔ r' = r.
Proof.
  intros Hr Hr'.
  rewrite (proj1 (list.Forall_forall _ _) REQUIRED_COLUMNS_stripped r' Hr').
  split; [| by intros ->]. intros Hl.
  by apply (NoDup_fmap_inj_on lower REQUIRED_COLUMNS r' r REQUIRED_COLUMNS_lower_NoDup).
Qed.

Lemma filter_required_labelled (cols : list (string * Series)) r :
  r ∈ REQUIRED_COLUMNS →
  Forall (λ c, c.1 ∈ REQUIRED_COLUMNS) cols →
  filter (λ c, lower (strip c.1) = lower r) cols = labelled r cols.
Proof.
  intros Hr. unfold labelled. induction 1 as [| c cols Hc _ IH]; [done |].
  rewrite !filter_cons, IH. pose proof (required_spells r c.1 Hr Hc) as Hiff.
  destruct (decide (lower (strip c.1) = lower r)), (decide (c.1 = r)); tauto.
Qed.

Lemma cleaned_labels_required (reqs : list string) df :
  Forall (λ c, c.1 ∈ reqs) (reqs ≫= λ r, matching_columns r df).
Proof.
  apply Forall_bind, list.Forall_forall. intros r Hr.
  eapply list.Forall_impl; [apply matching_columns_labels |]. by intros c ->.
Qed.

Lemma matching_columns_relabel r df :
  (λ c, (r, c.2)) <$> matching_columns r df = matching_columns r df.
Proof. unfold matching_columns. rewrite <- list_fmap_compose. by apply list_fmap_ext. Qed.

(** X3: cleaning is idempotent: a frame that [clean_dataframe] returned
    comes back unchanged when cleaned again. *)
Theorem clean_dataframe_idempotent (df out : DataFrame) :
  clean_dataframe df = Ok out → clean_dataframe out = Ok out.
Proof.
  rewrite !clean_dataframe_spec. intros [= <-]. cbn [index_len series]. do 2 f_equal.
  apply Forall_bind_ext, list.Forall_forall. intros r Hr.
  unfold matching_columns at 1. cbn [series].
  rewrite filter_required_labelled by (done || apply cleaned_labels_required).
  rewrite labelled_matching_columns by (apply REQUIRED_COLUMNS_NoDup || done).
  apply matching_columns_relabel.
Qed.

#[local] Transparent REQUIRED_COLUMNS.

Lemma clean_dataframe_idempotent_witness :
  clean_dataframe
    {| index_len := 1;
       series := [("State", [CStr "Remitted"]); ("State", [CStr "Rejected"])] |}
  = Ok {| index_len := 1;
          series := [("State", [CStr "Remitted"]); ("State", [CStr "Rejected"])] |}.
Proof. apply (clean_dataframe_idempotent two_state_headers). reflexivity. Defined.

#[local] Opaque REQUIRED_COLUMNS.

(** With no two headers alike up to case and surrounding blanks, at most
    one column spells a given name. *)
Lemma filter_spelling_unique (cols : list (string * Series)) (k : string) :
  NoDup ((λ c, lower (strip c.1)) <$> cols) →
  filter (λ c, lower (strip c.1) = k) cols = []
  ∧ k ∉ (λ c, lower (strip c.1)) <$> cols
  ∨ ∃ c, filter (λ c, lower (strip c.1) = k) cols = [c]
      ∧ k ∈ (λ c, lower (strip c.1)) <$> cols.
Proof.
  induction cols as [| c cols IH]; [left; split; [done | apply not_elem_of_nil] |].
  rewrite fmap_cons. intros [Hc Hnd]%list.NoDup_cons. rewrite filter_cons.
  destruct (IH Hnd) as [[Hnil Hnot] | (c' & Hone & Hin)].
  - rewrite Hnil. destruct (decide (lower (strip c.1) = k)) as [<- | Hne].
    + right. exists c. split; [done | left].
    + left. split; [done |]. rewrite not_elem_of_cons. split; [congruence | done].
  - rewrite Hone. destruct (decide (lower (strip c.1) = k)) as [<- | Hne].
    + done.
    + right. exists c'. split; [done | by right].
Qed.

Lemma bind_singleton_filter {A} (P : A → Prop) `{∀ x, Decision (P x)} (l : list A) :
  l ≫= (λ x, if decide (P x) then [x] else []) = filter P l.
Proof.
  induction l as [| x l IH]; [done |].
  rewrite bind_cons, filter_cons, IH. by destruct (decide (P x)).
Qed.

Lemma fmap_fst_bind {A} (f : A → list (string * Series)) (l : list A) :
  (l ≫= f).*1 = l ≫= λ x, (f x).*1.
Proof.
  induction l as [| x l IH]; [done |]. by rewrite !bind_cons, fmap_app, IH.
Qed.

(** X4: when no two headers are alike up to case and surrounding blanks,
    the cleaned frame has the rows of the source and, as its columns,
    exactly the required names that some header spells, each once, in the
    order of [REQUIRED_COLUMNS]. *)
Theorem clean_dataframe_columns (df out : DataFrame) :
  NoDup ((λ col, lower (strip col)) <$> columns df) →
  clean_dataframe df = Ok out →
  len out = len df
  ∧ columns out
    = filter (λ req_col, lower req_col ∈ (λ col, lower (strip col)) <$> columns df)
             REQUIRED_COLUMNS
  ∧ NoDup (columns out).
Proof.
  assert (Hkeys : (λ col, lower (strip col)) <$> columns df
                  = (λ c : string * Series, lower (strip c.1)) <$> series df)
    by (unfold columns; by rewrite <- list_fmap_compose).
  rewrite Hkeys. intros Hnd. rewrite clean_dataframe_spec. intros [= <-].
  assert (Hcols : columns {| index_len := index_len df;
                             series := REQUIRED_COLUMNS ≫= λ r, matching_columns r df |}
                  = filter (λ r, lower r ∈ (λ c : string * Series, lower (strip c.1)) <$> series df)
                           REQUIRED_COLUMNS).
  { unfold columns. cbn [series]. rewrite fmap_fst_bind, <- bind_singleton_filter.
    apply Forall_bind_ext, list.Forall_forall. intros r _.
    unfold matching_columns. rewrite <- list_fmap_compose.
    destruct (filter_spelling_unique (series df) (lower r) Hnd) as [[-> Hnot] | (c & -> & Hin)].
    - by rewrite decide_False.
    - by rewrite decide_True. }
  split; [done |]. split; [exact Hcols |].
  rewrite Hcols. apply list.NoDup_filter, REQUIRED_COLUMNS_NoDup.
Qed.

(** X5: when no two headers are alike up to case and surrounding blanks,
    the order of the source columns does not matter: frames with the same
    columns in another order are cleaned to the same frame. *)
Theorem clean_dataframe_order_independent (df df' : DataFrame) :
  NoDup ((λ col, lower (strip col)) <$> columns df) →
  series df ≡ₚ series df' →
  index_len df = index_len df' →
  clean_dataframe df = clean_dataframe df'.
Proof.
  assert (Hkeys : (λ col, lower (strip col)) <$> columns df
                  = (λ c : string * Series, lower (strip c.1)) <$> series df)
    by (unfold columns; by rewrite <- list_fmap_compose).
  rewrite Hkeys. intros Hnd Hperm Hlen. rewrite !clean_dataframe_spec, Hlen. do 2 f_equal.
  apply Forall_bind_ext, list.Forall_forall. intros r _. unfold matching_columns. f_equal.
  assert (Hfilter : filter (λ c : string * Series, lower (strip c.1) = lower r) (series df')
                    ≡ₚ filter (λ c, lower (strip c.1) = lower r) (series df))
    by by rewrite Hperm.
  destruct (filter_spelling_unique (series df) (lower r) Hnd) as [[Hnil _] | (c & Hone & _)].
  - rewrite Hnil in *. by apply Permutation_nil_r in Hfilter.
  - rewrite Hone in *. by apply Permutation_singleton_r in Hfilter.
Qed.

#[local] Transparent REQUIRED_COLUMNS.

Lemma clean_dataframe_columns_witness :
  ∃ out, clean_dataframe mixed_headers = Ok out
    ∧ len out = 1%nat
    ∧ columns out = ["Merchant ID"; "Amount"; "State"].
Proof.
  eexists. split; [reflexivity |].
  destruct (clean_dataframe_columns mixed_headers _ ltac:(vm_compute; repeat constructor;
              rewrite ?elem_of_cons, ?elem_of_nil; intuition discriminate) eq_refl)
    as (Hlen & Hcols & _).
  split; [exact Hlen | exact Hcols].
Defined.

Lemma clean_dataframe_order_independent_witness :
  clean_dataframe mixed_headers
  = clean_dataframe {| index_len := 1;
                       series := [("Notes", [CStr "x"]); ("State ", [CStr "remitted"]);
                                  ("AMOUNT", [num 10]); ("merchant id", [CStr "M1"])] |}.
Proof.
  apply (clean_dataframe_order_independent mixed_headers).
  - vm_compute. repeat constructor; rewrite ?elem_of_cons, ?elem_of_nil; intuition discriminate.
  - cbn [series mixed_headers]. apply (reverse_Permutation [_; _; _; _]).
  - reflexivity.
Defined.

(** ** [process_files], once more *)

Lemma concat_index_len objs out :
  pd.concat objs = Ok out → index_len out = sum_list (index_len <$> objs).
Proof.
  unfold pd.concat. destruct objs as [| first rest]; [discriminate |].
  destruct (forallb _ rest); [by intros [= <-] |].
  destruct (forallb _ (first :: rest)); [by intros [= <-] | discriminate].
Qed.

Lemma stack_labels (P : string → Prop) (a b : list (string * Series)) :
  Forall P a.*1 → Forall P (pd.stack a b).*1.
Proof.
  revert b. induction a as [| x a IH]; intros [| y b] Ha; try constructor.
  - by apply list.Forall_cons in Ha as [? _].
  - apply IH. by apply list.Forall_cons in Ha as [_ ?].
Qed.

Lemma foldl_stack_labels (P : string → Prop) (acc : list (string * Series)) rest :
  Forall P acc.*1 → Forall P (foldl pd.stack acc rest).*1.
Proof.
  revert acc. induction rest as [| b rest IH]; intros acc Hacc; [done |].
  apply IH. by apply stack_labels.
Qed.

Lemma unique_elem_of (l : list string) x : x ∈ pd.unique l → x ∈ l.
Proof.
  induction l as [| y l IH]; [done |]. simpl.
  intros [-> | [_ Hin]%list_elem_of_filter]%elem_of_cons; [left | right; auto].
Qed.

Lemma concat_labels (P : string → Prop) objs out :
  Forall (λ d, Forall P (columns d)) objs →
  pd.concat objs = Ok out →
  Forall P (columns out).
Proof.
  unfold pd.concat. destruct objs as [| first rest]; [discriminate |].
  intros Hall. destruct (forallb _ rest).
  - intros [= <-]. unfold columns. cbn [series]. apply foldl_stack_labels.
    by apply list.Forall_cons in Hall as [? _].
  - destruct (forallb _ (first :: rest)); [| discriminate].
    revert Hall. generalize (first :: rest). intros objs Hall [= <-].
    unfold columns. cbn [series]. rewrite <- list_fmap_compose.
    apply Forall_fmap, list.Forall_forall. intros label Hlabel%unique_elem_of. simpl.
    apply list_elem_of_bind in Hlabel as (d & Hin & Hd).
    pose proof (proj1 (list.Forall_forall _ _) Hall d Hd) as Hcols.
    exact (proj1 (list.Forall_forall _ _) Hcols label Hin).
Qed.

#[local] Opaque REQUIRED_COLUMNS.

Lemma clean_dataframe_labels df out :
  clean_dataframe df = Ok out → Forall (λ col, col ∈ REQUIRED_COLUMNS) (columns out).
Proof.
  rewrite clean_dataframe_spec. intros [= <-]. unfold columns. cbn [series].
  apply Forall_fmap. apply cleaned_labels_required.
Qed.

#[local] Transparent REQUIRED_COLUMNS.

Lemma for_each_outputs {A B} (f : A → outcome B) (l : list A) (ys : list B) :
  for_each f l = Ok ys → Forall (λ y, ∃ x, x ∈ l ∧ f x = Ok y) ys.
Proof.
  revert ys. induction l as [| x l IH]; intros ys; simpl; [intros [= <-]; constructor |].
  intros (y & Hy & (ys' & Hys & [= <-])%bind_Ok)%bind_Ok. constructor.
  - exists x. split; [left | done].
  - eapply list.Forall_impl; [by apply IH |]. intros y' (x' & ? & ?). exists x'. split; [by right | done].
Qed.

Section Files_more.
Context {io : External}.

(** X6: the reading loop treats every file on its own.  The frames kept
    are, in upload order, what reading and cleaning gave for exactly the
    files on which neither raised; the names reported with [st.error] are,
    in upload order, those of exactly the files on which one of them
    raised.  So a file is kept or reported, never both and never neither,
    and a failing file stops none of the others. *)
Theorem read_files_accounts (files : list UploadedFile) :
  (read_files files).1
  = omap (λ file, match read_and_clean file with
                  | Ok df => Some df
                  | Raise _ => None
                  end) files
  ∧ (read_files files).2
    = omap (λ file, match read_and_clean file with
                    | Ok _ => None
                    | Raise _ => Some (name file)
                    end) files.
Proof.
  induction files as [| file files [IHkept IHerrors]]; [done |].
  cbn [read_files omap list_omap]. destruct (read_files files) as [all_data errors].
  cbn [fst snd] in IHkept, IHerrors. rewrite <- IHkept, <- IHerrors.
  unfold read_and_clean. by destruct (_ ≫= clean_dataframe).
Qed.

Lemma read_files_labels (files : list UploadedFile) :
  Forall (λ d, Forall (λ col, col ∈ REQUIRED_COLUMNS) (columns d)) (read_files files).1.
Proof.
  induction files as [| file files IH]; [constructor |].
  cbn [read_files]. destruct (read_files files) as [all_data errors].
  destruct (_ ≫= clean_dataframe) as [df | e] eqn:Hattempt; [| done].
  apply bind_Ok in Hattempt as (raw & _ & Hclean).
  constructor; [by apply (clean_dataframe_labels raw) | done].
Qed.

Lemma process_files_shape files df :
  process_files files = Ok (Some df) →
  ∃ combined, pd.concat (read_files files).1 = Ok combined
    ∧ index_len df = index_len combined
    ∧ columns df = columns combined.
Proof.
  intros (combined & normalized & Hconcat & Hstate & Hamount)%process_files_Some.
  exists combined. split; [done |].
  assert (index_len normalized = index_len combined ∧ columns normalized = columns combined)
    as [Hlen Hcols].
  { clear Hamount. destruct (bool_decide ("State" ∈ columns combined)); [| by subst].
    destruct Hstate as (? & ? & _ & _ & ->). split; [done | apply columns_setitem]. }
  destruct (bool_decide ("Amount" ∈ columns normalized)); [| by subst].
  destruct Hamount as (? & _ & ->). split; [done | by rewrite columns_setitem].
Qed.

(** X7: [process_files] neither drops nor adds a row: the table it returns
    has as many rows as the frames read and cleaned have together. *)
Theorem process_files_row_count (files : list UploadedFile) (df : DataFrame) :
  process_files files = Ok (Some df) →
  len df = sum_list (len <$> (read_files files).1).
Proof.
  intros (combined & Hconcat & Hlen & _)%process_files_shape.
  unfold len. rewrite Hlen. by apply concat_index_len.
Qed.

(** X8: the table [process_files] returns has no column beyond the six of
    [REQUIRED_COLUMNS], whatever columns the files have. *)
Theorem process_files_columns (files : list UploadedFile) (df : DataFrame) :
  process_files files = Ok (Some df) →
  Forall (λ col, col ∈ REQUIRED_COLUMNS) (columns df).
Proof.
  intros (combined & Hconcat & _ & ->)%process_files_shape.
  eapply concat_labels; [apply read_files_labels | done].
Qed.

Lemma process_files_state_column files df states :
  process_files files = Ok (Some df) →
  getitem df "State" = Ok states →
  ∃ (source : Series) labels,
    for_each normalize_state source = Ok labels ∧ states = CStr <$> labels.
Proof.
  intros (combined & normalized & _ & Hstate & Hamount)%process_files_Some Hget.
  assert (Hsame : labelled "State" (series df) = labelled "State" (series normalized)).
  { destruct (bool_decide ("Amount" ∈ columns normalized)); [| by subst].
    destruct Hamount as (? & _ & ->). by apply labelled_setitem_ne. }
  unfold getitem in Hget. rewrite Hsame in Hget. clear Hamount Hsame.
  destruct (bool_decide ("State" ∈ columns combined)) eqn:Hin.
  - destruct Hstate as (c & labels & Hc & Hlabels & ->).
    rewrite labelled_setitem, Hc in Hget. injection Hget as <-. by exists c.2, labels.
  - subst normalized. apply bool_decide_eq_false, labelled_nil_iff in Hin.
    by rewrite Hin in Hget.
Qed.

(** X9: when the text in the frames read and cleaned is ASCII, every
    [State] value of the table [process_files] returns is text that
    [normalize_state] leaves as it is: normalizing the column a second
    time changes nothing. *)
Theorem process_files_state_fixed (files : list UploadedFile) (df : DataFrame)
    (states : Series) :
  Forall ascii_frame (read_files files).1 →
  process_files files = Ok (Some df) →
  getitem df "State" = Ok states →
  Forall (λ c, ∃ label, c = CStr label ∧ normalize_state c = Ok label) states.
Proof.
  intros _ Hfiles Hget.
  destruct (process_files_state_column _ _ _ Hfiles Hget) as (c & labels & Hlabels & ->).
  apply Forall_fmap. eapply list.Forall_impl; [exact (for_each_outputs _ _ _ Hlabels) |].
  intros label (x & _ & Hx). exists label. split; [done |]. by apply (normalize_state_fixed x).
Qed.

Lemma process_files_well_formed_frames files df :
  Forall well_formed (read_files files).1 →
  process_files files = Ok (Some df) →
  well_formed df.
Proof.
  intros Hframes (combined & normalized & Hconcat & Hstate & Hamount)%process_files_Some.
  assert (Hcombined : well_formed combined) by by eapply concat_well_formed.
  assert (Hcol : ∀ d key c, well_formed d → labelled key (series d) = [c] →
            length c.2 = index_len d).
  { intros d key c Hwf Hc. apply (proj1 (list.Forall_forall _ _) Hwf).
    apply (labelled_subseteq key). rewrite Hc. left. }
  assert (Hnormalized : well_formed normalized).
  { clear Hamount. destruct (bool_decide ("State" ∈ columns combined)); [| by subst].
    destruct Hstate as (c & states & Hc & Hstates & ->).
    apply setitem_well_formed; [done |].
    by rewrite length_fmap, (for_each_length _ _ _ Hstates), (Hcol combined "State"). }
  destruct (bool_decide ("Amount" ∈ columns normalized)); [| by subst].
  destruct Hamount as (c & Hc & ->).
  apply setitem_well_formed; [done |].
  by rewrite length_fmap, (Hcol normalized "Amount").
Qed.

(** X10: when every frame that pandas reads from the uploads has one entry
    per row in each column, so has the table [process_files] returns:
    cleaning, concatenating with NaN for the columns a file lacks, and
    rewriting [State] and [Amount] keep the columns aligned. *)
Theorem process_files_aligned (files : list UploadedFile) (df : DataFrame) :
  Forall (λ file, ∀ raw,
            (if endswith (name file) ".csv" then read_csv file else read_excel file) = Ok raw →
            well_formed raw) files →
  process_files files = Ok (Some df) →
  well_formed df.
Proof.
  intros Hread. apply process_files_well_formed_frames.
  induction Hread as [| file files Hfile _ IH]; [constructor |].
  cbn [read_files]. destruct (read_files files) as [all_data errors].
  destruct (_ ≫= clean_dataframe) as [d | e] eqn:Hattempt; [| done].
  apply bind_Ok in Hattempt as (raw & Hraw & Hclean).
  constructor; [| done]. apply (clean_dataframe_well_formed raw); [by apply Hfile | done].
Qed.

Lemma process_files_amount_column files df :
  process_files files = Ok (Some df) →
  "Amount" ∈ columns df →
  ∃ amounts, getitem df "Amount" = Ok amounts ∧ Forall (λ c, is_text c = false) amounts.
Proof.
  intros (combined & normalized & _ & _ & Hamount)%process_files_Some Hin.
  destruct (bool_decide ("Amount" ∈ columns normalized)) eqn:Hcol.
  - destruct Hamount as (c & Hc & ->). eexists. split.
    + unfold getitem. by rewrite labelled_setitem, Hc.
    + apply Forall_fmap, list.Forall_forall. by intros.
  - subst df. by apply bool_decide_eq_false in Hcol.
Qed.

End Files_more.

Lemma process_files_row_count_witness :
  len sample_unified
  = sum_list (len <$> (read_files (io := sample_io) sample_uploads).1).
Proof.
  apply (process_files_row_count (io := sample_io) sample_uploads sample_unified).
  vm_compute. reflexivity.
Defined.

Lemma process_files_columns_witness :
  Forall (λ col, col ∈ REQUIRED_COLUMNS) (columns sample_unified).
Proof.
  apply (process_files_columns (io := sample_io) sample_uploads sample_unified).
  vm_compute. reflexivity.
Defined.

Lemma process_files_state_fixed_witness :
  Forall (λ c, ∃ label, c = CStr label ∧ normalize_state c = Ok label)
         [CStr "Remitted"; CStr "On hold"; CStr "Unknown"; CStr "On hold"].
Proof.
  apply (process_files_state_fixed (io := sample_io) sample_uploads sample_unified).
  - vm_compute. repeat constructor.
  - vm_compute. reflexivity.
  - reflexivity.
Defined.

Lemma process_files_aligned_witness : well_formed sample_unified.
Proof.
  apply (process_files_aligned (io := sample_io) sample_uploads sample_unified).
  - repeat constructor; simpl; intros raw [= <-]; repeat constructor.
  - vm_compute. reflexivity.
Defined.

(** ** [calculate_merchant_stats], once more *)

Section Unified_stats.
Context {io : External}.

Lemma process_files_state_unique files df :
  process_files files = Ok (Some df) →
  "State" ∈ columns df →
  ∃ states, getitem df "State" = Ok states.
Proof.
  intros (combined & normalized & _ & Hstate & Hamount)%process_files_Some Hin.
  assert (Hsame : labelled "State" (series df) = labelled "State" (series normalized)
                  ∧ columns df = columns normalized).
  { destruct (bool_decide ("Amount" ∈ columns normalized)); [| by subst].
    destruct Hamount as (? & _ & ->).
    split; [by apply labelled_setitem_ne | apply columns_setitem]. }
  destruct Hsame as [Hlab Hcols]. unfold getitem. rewrite Hlab. rewrite Hcols in Hin.
  clear Hamount. destruct (bool_decide ("State" ∈ columns combined)) eqn:Hcol.
  - destruct Hstate as (c & labels & Hc & _ & ->). rewrite labelled_setitem, Hc. by eexists.
  - subst normalized. by apply bool_decide_eq_false in Hcol.
Qed.

(** X11: on a table that [process_files] returned, with its [State] and
    [Amount] columns and one [Merchant ID] column, [calculate_merchant_stats]
    returns statistics for every merchant id asked, known or not: it does
    not raise. *)
Theorem unified_table_stats_return (files : list UploadedFile) (df : DataFrame)
    (ids : Series) (merchant : cell) :
  process_files files = Ok (Some df) →
  getitem df "Merchant ID" = Ok ids →
  "State" ∈ columns df →
  "Amount" ∈ columns df →
  ∃ st, calculate_merchant_stats df merchant = Ok st.
Proof.
  intros Hfiles Hids Hstate Hamount.
  destruct (process_files_state_unique _ _ Hfiles Hstate) as [states Hstates].
  destruct (process_files_amount_column _ _ Hfiles Hamount) as (amounts & Hamounts & Hnum).
  by eapply calculate_merchant_stats_returns.
Qed.

End Unified_stats.

Lemma unified_table_stats_return_witness :
  ∃ st, calculate_merchant_stats sample_unified (CStr "M7") = Ok st.
Proof.
  apply (unified_table_stats_return (io := sample_io) sample_uploads sample_unified
           [CStr "M1"; CStr "M1"; CStr "M1"; CStr "M2"]).
  - vm_compute. reflexivity.
  - reflexivity.
  - vm_compute. do 2 right. left.
  - vm_compute. right. left.
Defined.

Lemma length_filter_true_le (mask : list bool) :
  length (filter (λ b, b = true) mask) ≤ length mask.
Proof. apply length_filter. Qed.

(** X12: the counts are ordered: never more successes than transactions of
    the merchant, and never more transactions of the merchant than rows in
    the table. *)
Theorem stats_counts_ordered (df : DataFrame) (merchant : cell) (st : MerchantStats) :
  well_formed df →
  calculate_merchant_stats df merchant = Ok st →
  success_txns st ≤ total_txns st ∧ total_txns st ≤ len df.
Proof.
  intros Hwf Hst. split; [by eapply success_le_total |].
  apply calculate_merchant_stats_Ok in Hst
    as (rows & states & amounts & xs & Hrows & _ & _ & _ & -> & _).
  apply bind_Ok in Hrows as (ids & Hids & [= <-]).
  unfold len, getitem_mask. cbn [index_len].
  etrans; [apply length_filter_true_le |].
  by rewrite length_fmap, (getitem_length _ _ _ Hwf Hids).
Qed.

Lemma stats_counts_ordered_witness :
  success_txns three_rows_M1 ≤ total_txns three_rows_M1
  ∧ total_txns three_rows_M1 ≤ len three_rows.
Proof.
  apply (stats_counts_ordered three_rows (CStr "M1") three_rows_M1).
  - repeat constructor.
  - vm_compute. reflexivity.
Defined.

Lemma py_eq_eq a b : py_eq a b = true → a = b ∧ pd.isna b = false.
Proof.
  destruct a as [| s | x], b as [| t | y]; simpl; try discriminate.
  - by intros ->%bool_decide_eq_true.
  - intros [[Hx Hy]%andb_true_iff ->%bool_decide_eq_true]%andb_true_iff.
    split; [done |]. by destruct y.
Qed.

Lemma select_no_match {A} (mask : list bool) (l : list A) :
  Forall (λ b, b = false) mask → select mask l = [].
Proof.
  intros Hmask. revert l. induction Hmask as [| b mask -> _ IH]; intros [| x l]; simpl; auto.
Qed.

Lemma filter_true_no_match (mask : list bool) :
  Forall (λ b, b = false) mask → filter (λ b, b = true) mask = [].
Proof.
  induction 1 as [| b mask -> _ IH]; [done |]. by rewrite filter_cons, IH.
Qed.

(** What was summed for [success_amount]. *)
Lemma calculate_merchant_stats_success_amount df merchant st :
  calculate_merchant_stats df merchant = Ok st →
  ∃ rows states amounts ys,
    merchant_rows df merchant = Ok rows
    ∧ getitem rows "State" = Ok states
    ∧ getitem rows "Amount" = Ok amounts
    ∧ for_each as_float (select ((λ c, py_eq c (CStr "Remitted")) <$> states) amounts) = Ok ys
    ∧ success_amount st = nansum ys.
Proof.
  unfold calculate_merchant_stats, merchant_rows.
  intros (ids & -> & Hrest)%bind_Ok.
  set (rows := getitem_mask df _) in *.
  apply bind_Ok in Hrest as (states & Hstates & Hrest).
  apply bind_Ok in Hrest as (total & Htotal & Hrest).
  apply bind_Ok in Hrest as (success & Hsuccess & Hrest).
  apply bind_Ok in Hrest as (by_state & _ & [= <-]).
  apply bind_Ok in Htotal as (amounts & Hamounts & _).
  apply bind_Ok in Hsuccess as (selected & Hselected & Hsum).
  apply getitem_getitem_mask in Hselected as (amounts' & Hamounts' & ->).
  rewrite Hamounts in Hamounts'. injection Hamounts' as <-.
  apply bind_Ok in Hsum as (ys & Hys & [= <-]).
  exists rows, states, amounts, ys. cbn [mbind outcome_bind]. by split_and!.
Qed.

(** X13: for a merchant id that no row carries, and for a missing id, the
    statistics are those of an empty set of rows: counts 0, rate 0,
    amounts 0, no state in either breakdown. *)
Theorem stats_of_absent_merchant (df : DataFrame) (merchant : cell) (ids : Series)
    (st : MerchantStats) :
  getitem df "Merchant ID" = Ok ids →
  merchant ∉ ids ∨ pd.isna merchant = true →
  calculate_merchant_stats df merchant = Ok st →
  total_txns st = 0
  ∧ success_txns st = 0
  ∧ (success_rate st == 0)%Q
  ∧ total_amount st = fzero
  ∧ success_amount st = fzero
  ∧ state_counts st = ∅
  ∧ state_amounts st = ∅.
Proof.
  intros Hids Habsent Hst.
  assert (Hmask : Forall (λ b, b = false) ((λ c, py_eq c merchant) <$> ids)).
  { apply Forall_fmap, list.Forall_forall. intros c Hc. simpl.
    destruct (py_eq c merchant) eqn:Heq; [| done].
    apply py_eq_eq in Heq as [-> Hna]. destruct Habsent; [done | congruence]. }
  assert (Hcol : ∀ rows key s, merchant_rows df merchant = Ok rows →
            getitem rows key = Ok s → s = []).
  { intros rows key s Hrows Hs. unfold merchant_rows in Hrows. rewrite Hids in Hrows.
    injection Hrows as <-. apply getitem_getitem_mask in Hs as (col & _ & ->).
    by apply select_no_match. }
  pose proof (calculate_merchant_stats_success_amount _ _ _ Hst)
    as (rows' & states' & amounts' & ys & Hrows' & Hstates' & Hamounts' & Hys & Hsuccess).
  apply calculate_merchant_stats_Ok in Hst
    as (rows & states & amounts & xs & Hrows & Hstates & Hamounts & Hxs
        & Htotal & Hsucc & Hrate & Hsum & Hcounts & Hby_state).
  rewrite (Hcol _ _ _ Hrows Hstates) in *. rewrite (Hcol _ _ _ Hrows Hamounts) in *.
  rewrite (Hcol _ _ _ Hrows' Hstates') in *. rewrite (Hcol _ _ _ Hrows' Hamounts') in *.
  injection Hxs as <-. injection Hys as <-.
  assert (Hzero : total_txns st = 0).
  { rewrite Htotal. unfold merchant_rows in Hrows. rewrite Hids in Hrows.
    injection Hrows as <-. unfold len, getitem_mask. cbn [index_len].
    by rewrite filter_true_no_match. }
  split_and!; try done.
  rewrite Hrate, Hzero, Hsucc. reflexivity.
Qed.

Lemma stats_of_absent_merchant_witness :
  ∃ st, calculate_merchant_stats three_rows (CStr "M9") = Ok st
    ∧ total_txns st = 0 ∧ state_counts st = ∅ ∧ total_amount st = fzero.
Proof.
  eexists. split; [vm_compute; reflexivity |].
  destruct (stats_of_absent_merchant three_rows (CStr "M9")
              [CStr "M1"; CStr "M1"; CStr "M2"] _ eq_refl
              ltac:(left; rewrite !not_elem_of_cons; split_and!;
                    [discriminate | discriminate | discriminate | apply not_elem_of_nil])
              eq_refl)
    as (Htotal & _ & _ & Hamount & _ & Hcounts & _).
  by split_and!.
Defined.

(** X14: a table that lacks one of the three columns the function reads
    makes it raise [KeyError], in the order it reads them: [Merchant ID],
    then [State], then [Amount]. *)
Theorem stats_missing_column (df : DataFrame) (merchant : cell) :
  ("Merchant ID" ∉ columns df →
   calculate_merchant_stats df merchant = Raise KeyError)
  ∧ (∀ ids, getitem df "Merchant ID" = Ok ids → "State" ∉ columns df →
     calculate_merchant_stats df merchant = Raise KeyError)
  ∧ (∀ ids states, getitem df "Merchant ID" = Ok ids → getitem df "State" = Ok states →
     "Amount" ∉ columns df →
     calculate_merchant_stats df merchant = Raise KeyError).
Proof.
  assert (Hmissing : ∀ d mask key, key ∉ columns d →
            getitem (getitem_mask d mask) key = Raise KeyError).
  { intros d mask key Hkey. unfold getitem.
    by rewrite labelled_getitem_mask, (proj2 (labelled_nil_iff _ _) Hkey). }
  assert (Hpresent : ∀ d mask key col, getitem d key = Ok col →
            getitem (getitem_mask d mask) key = Ok (select mask col)).
  { intros d mask key col. unfold getitem. rewrite labelled_getitem_mask.
    destruct (labelled key (series d)) as [| c [| ? ?]]; try discriminate.
    by intros [= <-]. }
  split_and!.
  - intros Hkey. unfold calculate_merchant_stats, getitem.
    by rewrite (proj2 (labelled_nil_iff _ _) Hkey).
  - intros ids Hids Hkey. unfold calculate_merchant_stats. rewrite Hids.
    cbn [mbind outcome_bind]. by rewrite (Hmissing _ _ _ Hkey).
  - intros ids states Hids Hstates Hkey. unfold calculate_merchant_stats. rewrite Hids.
    cbn [mbind outcome_bind]. rewrite (Hpresent _ _ _ _ Hstates).
    cbn [mbind outcome_bind]. by rewrite (Hmissing _ _ _ Hkey).
Qed.

Lemma stats_missing_column_witness :
  calculate_merchant_stats two_state_headers (CStr "M1") = Raise KeyError.
Proof.
  apply (proj1 (stats_missing_column two_state_headers (CStr "M1"))).
  change ("Merchant ID" ∉ ["state"; "STATE"]).
  rewrite !not_elem_of_cons. split_and!; [discriminate | discriminate |].
  apply not_elem_of_nil.
Defined.

(** X15: [success_txns] is the entry of [state_counts] under [Remitted],
    and 0 when there is none: the success count and the breakdown never
    disagree. *)
Theorem success_txns_is_remitted_count (df : DataFrame) (merchant : cell)
    (st : MerchantStats) :
  calculate_merchant_stats df merchant = Ok st →
  success_txns st = default 0 (state_counts st !! CStr "Remitted").
Proof.
  intros (rows & states & amounts & xs & _ & _ & _ & _ & _ & -> & _ & _ & -> & _)
    %calculate_merchant_stats_Ok.
  rewrite value_counts_lookup. simpl. by destruct (occurrences _ states).
Qed.

Lemma success_txns_is_remitted_count_witness :
  success_txns three_rows_M1 = default 0 (state_counts three_rows_M1 !! CStr "Remitted").
Proof.
  apply (success_txns_is_remitted_count three_rows (CStr "M1")). vm_compute. reflexivity.
Defined.

(** ** The merchants of a table *)

Lemma unique_elem_of_iff (s : Series) (c : cell) : c ∈ unique s ↔ c ∈ s.
Proof.
  induction s as [| y s IH]; [done |]. simpl.
  rewrite !elem_of_cons, list_elem_of_filter, IH.
  destruct (decide (c = y)) as [-> | Hne]; [split; by left | tauto].
Qed.

Lemma unique_NoDup (s : Series) : NoDup (unique s).
Proof.
  induction s as [| y s IH]; [constructor |]. simpl. apply list.NoDup_cons. split.
  - rewrite list_elem_of_filter. by intros [Hne _].
  - by apply list.NoDup_filter.
Qed.

Lemma sum_list_fmap_add {A} (f g : A → nat) (l : list A) :
  sum_list ((λ x, f x + g x) <$> l) = sum_list (f <$> l) + sum_list (g <$> l).
Proof.
  induction l as [| x l IH]; [done |]. rewrite !fmap_cons. cbn [sum_list_with].
  rewrite IH. unfold id. lia.
Qed.

Lemma sum_list_fmap_zero {A} (l : list A) : sum_list ((λ _, 0) <$> l) = 0.
Proof.
  induction l as [| x l IH]; [done |]. rewrite fmap_cons. cbn [sum_list_with].
  by rewrite IH.
Qed.

(** Among merchants that are listed once each, a row's id is matched by
    one of them when it is not missing, and by none when it is. *)
Lemma sum_list_py_eq (ms : Series) (rid : cell) :
  NoDup ms → (pd.isna rid = false → rid ∈ ms) →
  sum_list ((λ m, if py_eq rid m then 1 else 0) <$> ms) = if pd.isna rid then 0 else 1.
Proof.
  assert (Heq : ∀ m, py_eq rid m = true ↔ rid = m ∧ pd.isna rid = false).
  { intros m. split.
    - intros [-> ?]%py_eq_eq. done.
    - intros [<- Hna]. destruct rid as [| s | x]; simpl in *; try done.
      + by apply bool_decide_eq_true.
      + destruct x; try done; by rewrite bool_decide_true. }
  induction 1 as [| m ms Hm Hnd IH]; intros Hin.
  - destruct (pd.isna rid); [done |]. by destruct (not_elem_of_nil rid); apply Hin.
  - rewrite fmap_cons. cbn [sum_list_with]. unfold id at 1.
    destruct (py_eq rid m) eqn:Hidm.
    + apply Heq in Hidm as [-> Hna]. rewrite Hna.
      replace (sum_list _) with 0; [done |]. symmetry. erewrite list_fmap_ext.
      * apply sum_list_fmap_zero.
      * intros i m2 Hm2. simpl. destruct (py_eq m m2) eqn:Hmm; [| done].
        apply Heq in Hmm as [-> _]. destruct Hm. by eapply list_elem_of_lookup_2.
    + rewrite IH; [done |]. intros Hna. pose proof (Hin Hna) as [-> |]%elem_of_cons; [| done].
      assert (py_eq m m = true) by by apply Heq. congruence.
Qed.

(** The rows are shared out among the merchants: summing, over merchants
    listed once each, the rows of each that satisfy [P] gives the rows
    with an rid that satisfy [P]. *)
Lemma partition_by_merchant {B} (P : B → Prop) `{∀ x, Decision (P x)}
    (ms ids : Series) (col : list B) :
  NoDup ms →
  (∀ c, c ∈ ids → pd.isna c = false → c ∈ ms) →
  sum_list ((λ m, length (filter P (select ((λ c, py_eq c m) <$> ids) col))) <$> ms)
  = length (filter P (select ((λ c, negb (pd.isna c)) <$> ids) col)).
Proof.
  intros Hnd. revert col. induction ids as [| rid ids IH]; intros col Hin.
  - simpl. apply sum_list_fmap_zero.
  - destruct col as [| x col].
    + simpl. apply sum_list_fmap_zero.
    + rewrite fmap_cons. cbn [select].
      erewrite list_fmap_ext.
      2:{ intros i m _.
          instantiate (1 := λ m, (if py_eq rid m then if decide (P x) then 1 else 0 else 0)
                                 + length (filter P (select ((λ c, py_eq c m) <$> ids) col))).
          simpl. destruct (py_eq rid m); [| done].
          rewrite filter_cons. by destruct (decide (P x)). }
      rewrite sum_list_fmap_add, IH by (intros c Hc; apply Hin; by right).
      destruct (decide (P x)) as [HP | HP].
      * rewrite sum_list_py_eq; [| done | by intros; apply Hin; [left |]].
        destruct (pd.isna rid); simpl; [done |]. by rewrite filter_cons, decide_True.
      * erewrite (list_fmap_ext _ (λ _, 0) ms)
          by (by intros i m _; simpl; destruct (py_eq rid m)).
        rewrite sum_list_fmap_zero.
        destruct (pd.isna rid); simpl; [done |]. by rewrite filter_cons, decide_False.
Qed.

Lemma select_all {A} (mask : list bool) (l : list A) :
  Forall (λ b, b = true) mask → length l ≤ length mask → select mask l = l.
Proof.
  intros Hmask. revert l. induction Hmask as [| b mask -> _ IH]; intros [| x l]; simpl;
    try done; try lia.
  intros Hlen. f_equal. apply IH. lia.
Qed.

Lemma for_each_Forall2 {A B} (f : A → outcome B) (l : list A) (ys : list B) :
  for_each f l = Ok ys → Forall2 (λ x y, f x = Ok y) l ys.
Proof.
  revert ys. induction l as [| x l IH]; intros ys; simpl; [intros [= <-]; constructor |].
  intros (y & Hy & (ys' & Hys & [= <-])%bind_Ok)%bind_Ok. constructor; auto.
Qed.

Lemma overall_stats_Ok df o :
  overall_stats df = Ok o →
  ∃ states, getitem df "State" = Ok states
    ∧ overall_total_txns o = len df
    ∧ overall_success_txns o = occurrences (CStr "Remitted") states
    ∧ overall_sr o = rate_of (overall_success_txns o) (overall_total_txns o).
Proof.
  unfold overall_stats. intros (states & Hstates & Hrest)%bind_Ok.
  apply bind_Ok in Hrest as (total & _ & Hrest).
  apply bind_Ok in Hrest as (success & _ & [= <-]).
  exists states. cbn [overall_total_txns overall_success_txns overall_sr].
  assert (Hsuccess : len (getitem_mask df ((λ c, py_eq c (CStr "Remitted")) <$> states))
                     = occurrences (CStr "Remitted") states).
  { unfold len at 1. unfold getitem_mask, occurrences. cbn [index_len].
    rewrite length_filter_true_fmap. f_equal. apply list_filter_iff.
    intros c. apply py_eq_text. }
  by rewrite <- Hsuccess.
Qed.

(** X16: the merchants share out the table.  Over the ids of
    [df['Merchant ID'].unique()], the [total_txns] of the merchants add up
    to the number of rows that have an id; when no id is missing they add
    up to the overall [total_txns], and the [success_txns] to the overall
    [success_txns]: no row is counted twice and none is left out. *)
Theorem merchants_share_out_rows (df : DataFrame) (ms : Series) (sts : list MerchantStats)
    (ids : Series) (o : OverallStats) :
  well_formed df →
  getitem df "Merchant ID" = Ok ids →
  merchants df = Ok ms →
  for_each (calculate_merchant_stats df) ms = Ok sts →
  overall_stats df = Ok o →
  sum_list (total_txns <$> sts) = length (filter (λ c, pd.isna c = false) ids)
  ∧ (Forall (λ c, pd.isna c = false) ids →
     sum_list (total_txns <$> sts) = overall_total_txns o
     ∧ sum_list (success_txns <$> sts) = overall_success_txns o).
Proof.
  intros Hwf Hids Hms Hsts Ho. unfold merchants in Hms. rewrite Hids in Hms.
  injection Hms as <-.
  apply overall_stats_Ok in Ho as (states & Hstates & Htotal & Hsuccess & _).
  pose proof (getitem_length _ _ _ Hwf Hids) as Hlen_ids.
  pose proof (getitem_length _ _ _ Hwf Hstates) as Hlen_states.
  apply for_each_Forall2 in Hsts.
  assert (Hfields : Forall2 (λ m st,
            total_txns st = length (filter (λ _ : cell, True) (select ((λ c, py_eq c m) <$> ids) ids))
            ∧ success_txns st = length (filter (λ c, c = CStr "Remitted")
                                          (select ((λ c, py_eq c m) <$> ids) states)))
            (unique ids) sts).
  { eapply Forall2_impl; [| exact Hsts]. intros m st Hst. simpl in Hst.
    apply calculate_merchant_stats_Ok in Hst
      as (rows & states2 & _ & _ & Hrows & Hstates2 & _ & _ & -> & -> & _).
    unfold merchant_rows in Hrows. rewrite Hids in Hrows. injection Hrows as <-.
    apply getitem_getitem_mask in Hstates2 as (col & Hcol & ->).
    rewrite Hstates in Hcol. injection Hcol as <-. split; [| done].
    unfold len, getitem_mask. cbn [index_len].
    rewrite (filter_Forall_id (λ _ : cell, True)) by (by apply list.Forall_forall).
    rewrite length_select; [done | by rewrite length_fmap]. }
  assert (Htotals : total_txns <$> sts
            = (λ m, length (filter (λ _ : cell, True) (select ((λ c, py_eq c m) <$> ids) ids)))
              <$> unique ids).
  { clear -Hfields. induction Hfields as [| m st ms sts [Hst _] _ IH]; [done |].
    by rewrite !fmap_cons, Hst, IH. }
  assert (Hsuccesses : success_txns <$> sts
            = (λ m, length (filter (λ c, c = CStr "Remitted")
                              (select ((λ c, py_eq c m) <$> ids) states)))
              <$> unique ids).
  { clear -Hfields. induction Hfields as [| m st ms sts [_ Hst] _ IH]; [done |].
    by rewrite !fmap_cons, Hst, IH. }
  assert (Hcover : ∀ c, c ∈ ids → pd.isna c = false → c ∈ unique ids)
    by (intros c Hc _; by apply unique_elem_of_iff).
  rewrite Htotals, Hsuccesses.
  rewrite !partition_by_merchant by (apply unique_NoDup || done).
  split.
  - rewrite filter_Forall_id by (apply list.Forall_forall; done).
    clear. induction ids as [| c ids IH]; [done |].
    rewrite fmap_cons, filter_cons. cbn [select].
    destruct (pd.isna c); simpl; by rewrite IH.
  - intros Hall.
    assert (Hmask : Forall (λ b, b = true) ((λ c, negb (pd.isna c)) <$> ids)).
    { apply Forall_fmap. eapply list.Forall_impl; [exact Hall |].
      intros c Hc. simpl. by rewrite Hc. }
    rewrite !select_all by (done || rewrite length_fmap; lia).
    rewrite filter_Forall_id by (apply list.Forall_forall; done).
    rewrite Htotal, Hsuccess. unfold len. by rewrite Hlen_ids.
Qed.

Lemma merchants_share_out_rows_witness :
  sum_list (total_txns <$> [three_rows_M1;
                            {| merchant_id := CStr "M2"; total_txns := 1; success_txns := 1;
                               success_rate := round2 (float_mul (truediv (of_int 1) (of_int 1)) 100);
                               total_amount := nansum [FFin (Q2Qc 1)];
                               success_amount := nansum [FFin (Q2Qc 1)];
                               state_counts := pd.value_counts [CStr "Remitted"];
                               state_amounts :=
                                 pd.groupby_sum [CStr "Remitted"] [FFin (Q2Qc 1)] |}])
  = length (filter (λ c, pd.isna c = false) [CStr "M1"; CStr "M1"; CStr "M2"]).
Proof.
  eapply (proj1 (merchants_share_out_rows three_rows [CStr "M1"; CStr "M2"] _ _
                   {| overall_total_txns := 3; overall_success_txns := 2;
                      overall_sr := float_mul (truediv (of_int 2) (of_int 3)) 100;
                      overall_total_amount := nansum [FFin (Q2Qc 5); FFin (Q2Qc 7); FFin (Q2Qc 1)];
                      overall_success_amount := nansum [FFin (Q2Qc 7); FFin (Q2Qc 1)] |}
                   _ _ _ _ _)).
  Unshelve.
  - repeat constructor.
  - reflexivity.
  - reflexivity.
  - vm_compute. reflexivity.
  - vm_compute. reflexivity.
Defined.

(** ** The merchant lines of the report *)

Lemma max_by_count_spec (first : cell * nat) (rest : list (cell * nat)) :
  Dashboard_New_PDF1.max_by_count first rest ∈ first :: rest
  ∧ ∀ item, item ∈ first :: rest →
      item.2 ≤ (Dashboard_New_PDF1.max_by_count first rest).2.
Proof.
  unfold Dashboard_New_PDF1.max_by_count. revert first.
  induction rest as [| y rest IH]; intros first; simpl.
  - split; [left |]. by intros item [-> | ?%elem_of_nil]%elem_of_cons.
  - destruct (first.2 <? y.2) eqn:Hlt.
    + apply Nat.ltb_lt in Hlt. destruct (IH y) as [Hin Hle]. split; [by right |].
      intros item [-> | Hitem]%elem_of_cons; [| by apply Hle].
      specialize (Hle y (list_elem_of_here _ _)). lia.
    + apply Nat.ltb_ge in Hlt. destruct (IH first) as [Hin Hle]. split.
      * apply elem_of_cons in Hin as [-> | Hin]; [left | by do 2 right].
      * intros item [-> | [-> | Hitem]%elem_of_cons]%elem_of_cons.
        -- apply Hle. left.
        -- specialize (Hle first (list_elem_of_here _ _)). lia.
        -- apply Hle. by right.
Qed.

(** X17: the "Top State" of a merchant's line.  Whatever the order in
    which the dictionary of state counts lists its items: when it has
    none, the top state reads "N/A"; otherwise it is one of its states,
    and no state of the dictionary has a higher count. *)
Theorem top_state_most_frequent (counts : gmap cell nat) (items : list (cell * nat)) :
  items ≡ₚ map_to_list counts →
  (counts = ∅ → Dashboard_New_PDF1.top_state items = CStr "N/A")
  ∧ (counts ≠ ∅ →
     ∃ n, counts !! Dashboard_New_PDF1.top_state items = Some n
       ∧ ∀ k m, counts !! k = Some m → m ≤ n).
Proof.
  intros Hitems. split.
  - intros ->. rewrite map_to_list_empty in Hitems.
    by apply Permutation_nil_r in Hitems as ->.
  - intros Hne. destruct items as [| first rest].
    + symmetry in Hitems. apply Permutation_nil_r, map_to_list_empty_iff in Hitems. done.
    + cbn [Dashboard_New_PDF1.top_state].
      destruct (max_by_count_spec first rest) as [Hin Hle].
      destruct (Dashboard_New_PDF1.max_by_count first rest) as [k n] eqn:Hbest.
      exists n. split.
      * apply elem_of_map_to_list. by rewrite <- Hitems.
      * intros k2 m Hk2. apply elem_of_map_to_list in Hk2. rewrite <- Hitems in Hk2.
        exact (Hle (k2, m) Hk2).
Qed.

Lemma top_state_most_frequent_witness :
  ∃ n, state_counts three_rows_M1
         !! Dashboard_New_PDF1.top_state (map_to_list (state_counts three_rows_M1)) = Some n
    ∧ ∀ k m, state_counts three_rows_M1 !! k = Some m → m ≤ n.
Proof.
  apply (top_state_most_frequent (state_counts three_rows_M1)
           (map_to_list (state_counts three_rows_M1))); [reflexivity |].
  intros Hempty. apply (f_equal (λ m : gmap cell nat, m !! CStr "Remitted")) in Hempty.
  vm_compute in Hempty. discriminate.
Defined.

Section Date_display.
Context {io : External}.
Variable strftime : Z → string.

Lemma get_merchant_date_range_Ok (df : DataFrame) (merchant : cell) (rows : DataFrame) :
  merchant_rows df merchant = Ok rows →
  Dashboard_New_PDF1.get_merchant_date_range df merchant = Ok (None, None)
    ∧ (len rows = 0 ∨ parseable_timestamps rows = [])
  ∨ len rows ≠ 0
    ∧ ∃ d ds, parseable_timestamps rows = d :: ds
        ∧ Dashboard_New_PDF1.get_merchant_date_range df merchant
          = Ok (Some (foldr Z.min d ds), Some (foldr Z.max d ds)).
Proof.
  intros (ids & Hids & [= <-])%bind_Ok.
  unfold Dashboard_New_PDF1.get_merchant_date_range. rewrite Hids. cbn [mbind outcome_bind].
  set (rows := getitem_mask df _).
  case_bool_decide as Hlen; [left; split; [done | by left] |].
  destruct (bool_decide ("Issue Timestamp" ∈ columns rows)) eqn:Hcol; cbn [negb].
  2:{ apply bool_decide_eq_false in Hcol. left. split; [done | right].
      unfold parseable_timestamps, getitem.
      by rewrite (proj2 (labelled_nil_iff _ _) Hcol). }
  unfold parseable_timestamps.
  destruct (getitem rows "Issue Timestamp") as [column | e]; cbn [mbind outcome_bind];
    [| left; split; [done | by right]].
  destruct (to_datetime column) as [parsed | e]; cbn [mbind outcome_bind];
    [| left; split; [done | by right]].
  destruct (omap id parsed) as [| d ds]; [left; split; [done | by right] |].
  right. split; [done |]. by exists d, ds.
Qed.

(** X18: the "Date Range" of a merchant's line, [format_date_range] of
    what [get_merchant_date_range] returns.  With the merchant's rows at
    hand both are computed.  A merchant none of whose timestamps parses
    is shown "N/A".  A merchant with rows and a timestamp that parses is
    shown its least and its greatest parseable timestamp, printed and
    joined by " to ", or the one print when the two print alike; so when
    all its parseable timestamps print as one day, that day alone is
    shown. *)
Theorem date_range_display (df : DataFrame) (merchant : cell) (rows : DataFrame) :
  merchant_rows df merchant = Ok rows →
  ∃ lo hi,
    Dashboard_New_PDF1.get_merchant_date_range df merchant = Ok (lo, hi)
    ∧ (parseable_timestamps rows = [] →
       Dashboard_New_PDF1.format_date_range strftime lo hi = "N/A")
    ∧ (len rows ≠ 0 → parseable_timestamps rows ≠ [] →
       ∃ least greatest,
         least ∈ parseable_timestamps rows
         ∧ greatest ∈ parseable_timestamps rows
         ∧ (∀ d, d ∈ parseable_timestamps rows → (least ≤ d ≤ greatest)%Z)
         ∧ Dashboard_New_PDF1.format_date_range strftime lo hi
           = (if decide (strftime least = strftime greatest) then strftime least
              else strftime least +:+ " to " +:+ strftime greatest)
         ∧ ∀ day, (∀ d, d ∈ parseable_timestamps rows → strftime d = day) →
             Dashboard_New_PDF1.format_date_range strftime lo hi = day).
Proof.
  intros Hrows.
  destruct (get_merchant_date_range_Ok df merchant rows Hrows)
    as [[Hnone Hwhy] | (Hlen & d & ds & Hparse & Hsome)].
  - exists None, None. split; [done |]. split; [done |].
    intros Hlen Hparse. by destruct Hwhy.
  - exists (Some (foldr Z.min d ds)), (Some (foldr Z.max d ds)).
    split; [done |]. split; [by rewrite Hparse |]. intros _ _.
    destruct (foldr_min_spec d ds) as [Hmin_in Hmin].
    destruct (foldr_max_spec d ds) as [Hmax_in Hmax].
    exists (foldr Z.min d ds), (foldr Z.max d ds). rewrite Hparse.
    split; [done |]. split; [done |].
    split; [intros x Hx; split; [by apply Hmin | by apply Hmax] |].
    cbn [Dashboard_New_PDF1.format_date_range].
    split.
    + case_bool_decide; [by rewrite decide_True | by rewrite decide_False].
    + intros day Hday. rewrite !Hday by done. by rewrite bool_decide_true.
Qed.

End Date_display.

Lemma date_range_display_witness :
  ∃ lo hi,
    Dashboard_New_PDF1.get_merchant_date_range (io := sample_io) three_rows (CStr "M1")
    = Ok (lo, hi)
    ∧ Dashboard_New_PDF1.format_date_range (λ z, decimal (Z.to_N z)) lo hi = "20".
Proof.
  destruct (date_range_display (io := sample_io) (λ z, decimal (Z.to_N z))
              three_rows (CStr "M1") (getitem_mask three_rows [true; true; false]))
    as (lo & hi & Hrange & _ & Hsome); [reflexivity |].
  exists lo, hi. split; [exact Hrange |].
  destruct Hsome as (least & greatest & _ & _ & _ & _ & Hday);
    [discriminate | discriminate |].
  apply Hday. intros d Hd. vm_compute in Hd.
  by apply elem_of_cons in Hd as [-> | ?%elem_of_nil].
Defined.

(** ** The configuration of the mail *)

Lemma lstrip_idemp s : lstrip (lstrip s) = lstrip s.
Proof.
  induction s as [| c s IH]; [done |]. simpl.
  destruct (isspace c) eqn:Hc; [done |]. simpl. by rewrite Hc.
Qed.

Lemma rstrip_nonspace c s : isspace c = false → rstrip (String c s) = String c (rstrip s).
Proof. intros Hc. simpl. rewrite Hc. by destruct (rstrip s). Qed.

Lemma rstrip_idemp s : rstrip (rstrip s) = rstrip s.
Proof.
  induction s as [| c s IH]; [done |]. simpl.
  destruct (rstrip s) as [| c2 r] eqn:Hr.
  - destruct (isspace c) eqn:Hc; [done |]. simpl. by rewrite Hc.
  - set (t := String c2 r) in *. change (rstrip (String c t)) with
      (match rstrip t with
       | EmptyString => if isspace c then EmptyString else String c EmptyString
       | r => String c r
       end).
    by rewrite IH.
Qed.

Lemma lstrip_rstrip s : lstrip (rstrip s) = rstrip (lstrip s).
Proof.
  induction s as [| c s IH]; [done |].
  destruct (isspace c) eqn:Hc.
  - cbn [lstrip]. rewrite Hc, <- IH. cbn [rstrip].
    destruct (rstrip s) as [| c2 r]; [by rewrite Hc |]. cbn [lstrip]. by rewrite Hc.
  - rewrite (rstrip_lstrip_head c s Hc), (rstrip_nonspace c s Hc).
    cbn [lstrip]. by rewrite Hc.
Qed.

Lemma append_nil (b : string) : "" +:+ b = b.
Proof. reflexivity. Qed.

Lemma append_cons (x : ascii) (a b : string) : String x a +:+ b = String x (a +:+ b).
Proof. reflexivity. Qed.

Lemma lstrip_app_nonspace a c b :
  isspace c = false → lstrip (a +:+ String c b) = lstrip a +:+ String c b.
Proof.
  intros Hc. induction a as [| x a IH].
  - rewrite append_nil. simpl. by rewrite Hc.
  - rewrite append_cons. cbn [lstrip]. destruct (isspace x); [done |].
    by rewrite append_cons.
Qed.

Lemma rstrip_app_nonspace a c b :
  isspace c = false → rstrip (a +:+ String c b) = a +:+ String c (rstrip b).
Proof.
  intros Hc. induction a as [| x a IH]; [by apply rstrip_nonspace |].
  rewrite !append_cons. cbn [rstrip]. rewrite IH.
  destruct a; by rewrite ?append_nil, ?append_cons.
Qed.

Lemma strip_assignment key value :
  strip (key +:+ String "=" value) = lstrip key +:+ String "=" (rstrip value).
Proof.
  unfold strip. by rewrite lstrip_app_nonspace, rstrip_app_nonspace.
Qed.

Lemma contains_app sep a b : contains sep (a +:+ String sep b) = true.
Proof.
  induction a as [| x a IH]; rewrite ?append_nil, ?append_cons; cbn [contains].
  - by rewrite bool_decide_true.
  - by rewrite IH, orb_true_r.
Qed.

Lemma contains_lstrip sep s : contains sep s = false → contains sep (lstrip s) = false.
Proof.
  induction s as [| c s IH]; [done |]. simpl. destruct (isspace c); [| done].
  intros [_ Hs]%orb_false_iff. by apply IH.
Qed.

Lemma split_once_app sep a b :
  contains sep a = false → split_once sep (a +:+ String sep b) = Some (a, b).
Proof.
  induction a as [| x a IH]; rewrite ?append_nil, ?append_cons; cbn [contains split_once].
  - by rewrite bool_decide_true.
  - intros [Hx Ha]%orb_false_iff. by rewrite Hx, IH.
Qed.

Lemma split_once_contains sep s before after :
  split_once sep s = Some (before, after) →
  s = before +:+ String sep after ∧ contains sep before = false.
Proof.
  revert before. induction s as [| c s IH]; intros before; [done |]. simpl.
  case_bool_decide as Hc.
  - intros [= <- <-]. by subst.
  - destruct (split_once sep s) as [[b2 a2] |]; [| done]. intros [= <- <-].
    destruct (IH b2 eq_refl) as [-> Hb2]. rewrite append_cons. cbn [contains].
    split; [done |]. by rewrite bool_decide_false.
Qed.

Lemma read_config_snoc lines line :
  Dashboard_New_PDF1.read_config (lines ++ [line])
  = let config := Dashboard_New_PDF1.read_config lines in
    if contains "=" line then
      match split_once "=" (strip line) with
      | Some (key, value) => <[strip key := strip value]> config
      | None => config
      end
    else config.
Proof. unfold Dashboard_New_PDF1.read_config. by rewrite foldl_app. Qed.

(** Lines without the sign, after [lines], leave the dictionary as it is. *)
Lemma read_config_ignored lines rest :
  Forall (λ line, contains "=" line = false) rest →
  Dashboard_New_PDF1.read_config (lines ++ rest) = Dashboard_New_PDF1.read_config lines.
Proof.
  induction rest as [| line rest IH] using rev_ind; intros Hrest.
  - by rewrite app_nil_r.
  - apply Forall_app in Hrest as [Hrest Hline%Forall_inv].
    rewrite app_assoc, read_config_snoc. cbn zeta. rewrite Hline. by apply IH.
Qed.

(** Every entry of the dictionary is written by a line of the file. *)
Lemma read_config_origin lines k v :
  Dashboard_New_PDF1.read_config lines !! k = Some v →
  ∃ line key value,
    line ∈ lines
    ∧ strip line = key +:+ String "=" value
    ∧ contains "=" key = false
    ∧ k = strip key ∧ v = strip value.
Proof.
  induction lines as [| line lines IH] using rev_ind.
  - unfold Dashboard_New_PDF1.read_config. simpl. by rewrite lookup_empty.
  - rewrite read_config_snoc. cbn zeta.
    assert (Hold : Dashboard_New_PDF1.read_config lines !! k = Some v →
                   ∃ line0 key value, line0 ∈ lines ++ [line]
                     ∧ strip line0 = key +:+ String "=" value
                     ∧ contains "=" key = false ∧ k = strip key ∧ v = strip value).
    { intros (line0 & key & value & Hin & Hrest)%IH. exists line0, key, value.
      split; [| done]. apply elem_of_app. by left. }
    destruct (contains "=" line); [| done].
    destruct (split_once "=" (strip line)) as [[key value] |] eqn:Hsplit; [| done].
    destruct (decide (strip key = k)) as [<- | Hk].
    + rewrite lookup_insert_eq. intros [= <-].
      apply split_once_contains in Hsplit as [Hline Hkey].
      exists line, key, value. split; [| done]. apply elem_of_app. right. by left.
    + by rewrite lookup_insert_ne.
Qed.

(** X19: the dictionary read from [config.txt].  After any lines, a line
    [key=value] whose key holds no [=] binds the key, stripped of the
    blanks around it, to the value, stripped likewise: it overrides what
    the lines before it bound to that key, the value may itself hold [=]
    since the line is split at the first one, and the lines after it
    that hold no [=] change nothing. *)
Theorem read_config_last_assignment (lines rest : list string) (key value : string) :
  contains "=" key = false →
  Forall (λ line, contains "=" line = false) rest →
  Dashboard_New_PDF1.read_config (lines ++ (key +:+ "=" +:+ value) :: rest) !! strip key
  = Some (strip value).
Proof.
  intros Hkey Hrest.
  change (lines ++ ?line :: rest) with (lines ++ [line] ++ rest).
  rewrite (assoc_L (++)), read_config_ignored, read_config_snoc by done.
  cbn zeta. change ("=" +:+ value) with (String "=" value).
  rewrite contains_app, strip_assignment.
  rewrite split_once_app by by apply contains_lstrip.
  assert (Hk : strip (lstrip key) = strip key) by (unfold strip; by rewrite lstrip_idemp).
  assert (Hv : strip (rstrip value) = strip value)
    by (unfold strip; by rewrite lstrip_rstrip, rstrip_idemp).
  by rewrite Hk, Hv, lookup_insert_eq.
Qed.

Lemma read_config_last_assignment_witness :
  Dashboard_New_PDF1.read_config
    (["APP_PASSWORD=old"; "SENDER_EMAIL = a@b.c"] ++ (" APP_PASSWORD " +:+ "=" +:+ " p=q ")
       :: ["# mail settings"; ""])
  !! strip " APP_PASSWORD "
  = Some (strip " p=q ").
Proof.
  apply (read_config_last_assignment ["APP_PASSWORD=old"; "SENDER_EMAIL = a@b.c"]
           ["# mail settings"; ""] " APP_PASSWORD " " p=q ").
  - reflexivity.
  - repeat constructor.
Defined.

(** X20: the dictionary read from [config.txt] holds nothing but what a
    line of the file assigns: an entry comes from a line that, stripped,
    reads [key=value] with no [=] in [key]; it binds the stripped key to
    the stripped value.  So a file none of whose lines holds [=] gives no
    entry at all. *)
Theorem read_config_entries (lines : list string) :
  (∀ k v, Dashboard_New_PDF1.read_config lines !! k = Some v →
     ∃ line key value,
       line ∈ lines
       ∧ strip line = key +:+ "=" +:+ value
       ∧ contains "=" key = false
       ∧ k = strip key ∧ v = strip value)
  ∧ (Forall (λ line, contains "=" line = false) lines →
     Dashboard_New_PDF1.read_config lines = ∅).
Proof.
  split.
  - intros k v Hkv. exact (read_config_origin lines k v Hkv).
  - intros Hlines. exact (read_config_ignored [] lines Hlines).
Qed.


Lemma read_config_entries_witness :
  Dashboard_New_PDF1.read_config ["# mail settings"; ""] = ∅.
Proof.
  apply (proj2 (read_config_entries ["# mail settings"; ""])).
  repeat constructor.
Defined.


(** ** The screenshot view *)

Lemma range_step_1 (start stop : nat) :
  range start stop 1 = (λ k, start + k) <$> seq 0 (stop - start).
Proof.
  unfold range. rewrite Nat.sub_diag, Nat.add_0_r, Nat.div_1_r.
  apply list_fmap_ext. intros i k _. simpl. lia.
Qed.

(** Reading the cards [start .. stop - 1] of a batch that has them. *)
Lemma mapM_lookup_range {A} (batch : list A) (start stop : nat) :
  stop ≤ length batch →
  mapM (λ idx, batch !! idx) (range start stop 1) = Some (slice batch start stop).
Proof.
  intros Hstop. rewrite range_step_1. apply mapM_Some.
  apply Forall2_same_length_lookup_2.
  - unfold slice. rewrite length_fmap, length_seq, length_take, length_drop. lia.
  - intros i idx x Hidx Hx. apply list_lookup_fmap_Some in Hidx as (k & -> & Hk).
    apply lookup_seq in Hk as [-> Hi]. unfold slice in Hx.
    apply lookup_take_Some in Hx as [Hx _]. by rewrite lookup_drop in Hx.
Qed.

(** The rows of one batch of at most six merchants. *)
Lemma batch_rows {A} (batch : list A) :
  length batch ≤ 6 →
  ∃ rows,
    (row1 ← (if bool_decide (1 ≤ length batch)
             then cards ← mapM (λ idx, batch !! idx) (range 0 (3 `min` length batch) 1);
                  Some [cards]
             else Some []);
     row2 ← (if bool_decide (3 < length batch)
             then cards ← mapM (λ idx, batch !! idx) (range 3 (6 `min` length batch) 1);
                  Some [cards]
             else Some []);
     Some (row1 ++ row2)) = Some rows
    ∧ mjoin rows = batch
    ∧ Forall (λ row, 1 ≤ length row ≤ 3) rows.
Proof.
  intros Hlen.
  rewrite !mapM_lookup_range by lia. unfold slice. rewrite drop_0.
  destruct (decide (3 < length batch)) as [Hrow2 | Hrow2];
    [rewrite !bool_decide_true by lia | rewrite (bool_decide_false (3 < _)) by done].
  - cbn [mbind option_bind]. eexists. split; [reflexivity |].
    cbn [app mjoin list_join]. rewrite app_nil_r. split.
    + replace (6 `min` length batch - 3) with (length batch - 3) by lia.
      rewrite (take_ge (drop 3 batch)) by (rewrite length_drop; lia).
      replace (3 `min` length batch - 0) with 3 by lia. apply take_drop.
    + apply list.Forall_cons. split; [rewrite length_take; lia |].
      apply list.Forall_cons. split; [rewrite length_take, length_drop; lia | constructor].
  - destruct (decide (1 ≤ length batch)) as [Hrow1 | Hrow1];
      [rewrite bool_decide_true by done | rewrite bool_decide_false by done];
      cbn [mbind option_bind]; (eexists; split; [reflexivity |]).
    + cbn [app mjoin list_join]. rewrite app_nil_r. split.
      * apply take_ge. lia.
      * apply list.Forall_cons. split; [rewrite length_take; lia | constructor].
    + split; [| constructor]. destruct batch; [done | simpl in *; lia].
Qed.

Lemma mapM_batches {A} (f : nat → option (list (list A))) (g : nat → list A)
    (P : list A → Prop) (starts : list nat) :
  (∀ start, ∃ rows, f start = Some rows ∧ mjoin rows = g start ∧ Forall P rows) →
  ∃ views, mapM f starts = Some views
    ∧ mjoin (mjoin views) = mjoin (g <$> starts)
    ∧ Forall P (mjoin views).
Proof.
  intros Hf. induction starts as [| start starts (views & Hviews & Hjoin & Hall)].
  - by exists [].
  - destruct (Hf start) as (rows & Hrows & Hrows_join & Hrows_all).
    exists (rows :: views). cbn [mapM]. rewrite Hrows, Hviews. split; [done |].
    change (mjoin (rows :: views)) with (rows ++ mjoin views).
    rewrite fmap_cons. change (mjoin (g start :: (g <$> starts))) with (g start ++ mjoin (g <$> starts)).
    split.
    + rewrite join_app. by rewrite Hrows_join, Hjoin.
    + by apply Forall_app.
Qed.

(** The batches of six, put end to end, are the list again. *)
Lemma batches_join {A} (l : list A) (j : nat) :
  mjoin ((λ start, slice l start ((start + 6) `min` length l))
           <$> ((λ k, 0 + k * 6) <$> seq 0 j))
  = take (j * 6) l.
Proof.
  induction j as [| j IH]; [done |].
  rewrite seq_S, !fmap_app, join_app, IH. cbn [fmap list_fmap mjoin list_join].
  rewrite app_nil_r. unfold slice. cbn [Nat.add].
  replace ((j * 6 + 6) `min` length l - j * 6) with (6 `min` (length l - j * 6)) by lia.
  rewrite <- take_take, (take_ge (drop (j * 6) l)) by (rewrite length_drop; lia).
  rewrite take_take_drop. f_equal. lia.
Qed.

(** X22: the "Screenshot View" shows every merchant once, in the order of
    the list: the cards are laid out without an index ever falling
    outside a batch, the rows read one after the other give the list of
    merchants again, and every row holds at least one card and at most
    three. *)
Theorem screenshot_view_shows_all {A} (merchants : list A) :
  ∃ rows,
    screenshot_view merchants = Some rows
    ∧ mjoin rows = merchants
    ∧ Forall (λ row, 1 ≤ length row ≤ 3) rows.
Proof.
  unfold screenshot_view. cbv zeta.
  edestruct (mapM_batches (A := A)) as (views & Hviews & Hjoin & Hall);
    [| rewrite Hviews].
  - intros start. apply (batch_rows (slice merchants start ((start + 6) `min` length merchants))).
    unfold slice. rewrite length_take. lia.
  - cbn [mbind option_bind]. eexists. split; [reflexivity |]. split; [| done].
    rewrite Hjoin. unfold range. rewrite batches_join.
    apply take_ge. rewrite Nat.sub_0_r.
    pose proof (Nat.div_mod_eq (length merchants + (6 - 1)) 6).
    pose proof (Nat.mod_upper_bound (length merchants + (6 - 1)) 6). lia.
Qed.

(** ** Amounts on display *)

Lemma round_half_even_nearest (y : Q) :
  (y - (1 # 2) <= inject_Z (round_half_even y) <= y + (1 # 2))%Q.
Proof.
  unfold round_half_even.
  pose proof (Qfloor_le y) as Hlo. pose proof (Qlt_floor y) as Hhi.
  rewrite inject_Z_plus in Hhi. change (inject_Z 1) with 1%Q in Hhi.
  assert (Hnext : (inject_Z (Qfloor y + 1) == inject_Z (Qfloor y) + 1)%Q)
    by by rewrite inject_Z_plus.
  destruct (y - inject_Z (Qfloor y) ?= 1 # 2)%Q eqn:Hcmp.
  - apply Qeq_alt in Hcmp. destruct (Z.even (Qfloor y)); [lra |]. rewrite Hnext. lra.
  - apply Qlt_alt in Hcmp. lra.
  - apply Qgt_alt in Hcmp. rewrite Hnext. lra.
Qed.

Lemma filter_rev {A} (P : A → Prop) `{∀ x, Decision (P x)} (l : list A) :
  filter P (rev l) = rev (filter P l).
Proof.
  induction l as [| x l IH]; [done |]. cbn [rev].
  rewrite list.filter_app, IH, filter_cons.
  destruct (decide (P x)); rewrite filter_cons; [rewrite decide_True by done
                                                | rewrite decide_False by done];
    cbn [rev]; by rewrite ?app_nil_r.
Qed.

Lemma group_thousands_step (a b c d : ascii) (rest : list ascii) :
  group_thousands (a :: b :: c :: d :: rest)
  = a :: b :: c :: ","%char :: group_thousands (d :: rest).
Proof. reflexivity. Qed.

(** Taking the separators out again gives the digits back. *)
Lemma group_thousands_filter (digits : list ascii) :
  ","%char ∉ digits →
  filter (λ c, c ≠ ","%char) (group_thousands digits) = digits.
Proof.
  remember (length digits) as n eqn:Hn. revert digits Hn.
  induction n as [n IH] using lt_wf_ind. intros digits -> Hdigits.
  assert (Hall : filter (λ c, c ≠ ","%char) digits = digits).
  { apply filter_Forall_id, list.Forall_forall. by intros c Hc ->. }
  destruct digits as [| a [| b [| c [| d rest]]]]; try exact Hall.
  rewrite group_thousands_step.
  rewrite !not_elem_of_cons in Hdigits. destruct Hdigits as (Ha & Hb & Hc & Hd & Hrest).
  rewrite !filter_cons, !decide_True by done.
  rewrite (decide_False (P := ","%char ≠ ","%char)) by (by intros ?).
  do 3 f_equal. eapply IH; [| reflexivity |]; [simpl; lia |].
  rewrite not_elem_of_cons. done.
Qed.


Lemma string_of_uint_digits (d : Decimal.uint) :
  ","%char ∉ list_ascii_of_string (DecimalString.NilEmpty.string_of_uint d).
Proof.
  induction d; simpl; rewrite ?not_elem_of_cons; [apply not_elem_of_nil | by split ..].
Qed.

Lemma decimal_digits (n : N) : ","%char ∉ list_ascii_of_string (decimal n).
Proof.
  unfold decimal, NilZero.string_of_uint.
  destruct (N.to_uint n) eqn:Hd; try (rewrite <- Hd; apply string_of_uint_digits).
  simpl. rewrite not_elem_of_cons. split; [done | apply not_elem_of_nil].
Qed.

Lemma without_separators_thousands (numeral : string) :
  ","%char ∉ list_ascii_of_string numeral →
  without_separators (thousands numeral) = numeral.
Proof.
  intros Hnumeral. unfold without_separators, thousands.
  rewrite list_ascii_of_string_of_list_ascii, filter_rev, group_thousands_filter.
  - by rewrite rev_involutive, string_of_list_ascii_of_string.
  - intros Hin. apply Hnumeral. apply list_elem_of_In, in_rev, list_elem_of_In in Hin. done.
Qed.

Lemma read_amount_thousands (n : N) : read_amount (thousands (decimal n)) = Some n.
Proof.
  unfold read_amount. rewrite without_separators_thousands by apply decimal_digits.
  unfold decimal. rewrite NilZero.usu.
  - simpl. by rewrite DecimalN.Unsigned.of_to.
  - destruct n as [| p]; [done | apply DecimalPos.Unsigned.to_uint_nonnil].
Qed.

(** X23: what [format_currency] shows of a finite amount reads back as
    the amount: after "Rs " comes the sign, which is "-" for an amount
    below zero and nothing for an amount above zero, and then a number
    which, read without its separators, is an integer within one half of
    the size of the amount. *)
Theorem format_currency_reads_back (q : Qc) :
  ∃ sign body n,
    format_currency (FFin q) = "Rs " +:+ sign +:+ body
    ∧ ((q < 0)%Qc → sign = "-")
    ∧ ((0 < q)%Qc → sign = "")
    ∧ read_amount body = Some n
    ∧ (Qabs q - (1 # 2) <= inject_Z (Z.of_N n) <= Qabs q + (1 # 2))%Q.
Proof.
  exists (if bool_decide (q < 0)%Qc then "-" else ""),
         (thousands (decimal (Z.to_N (round_half_even (Qabs q))))),
         (Z.to_N (round_half_even (Qabs q))).
  split; [done |].
  split; [intros Hneg; by rewrite bool_decide_true |].
  split.
  { intros Hpos. rewrite bool_decide_false; [done |].
    intros Hneg. exact (Qclt_not_le _ _ Hneg (Qclt_le_weak _ _ Hpos)). }
  split; [apply read_amount_thousands |].
  rewrite Z2N.id by apply round_half_even_nonneg, Qabs_nonneg.
  apply round_half_even_nearest.
Qed.

